(** * NoteShare: the in-memory store and the request handlers over it

    A shallow embedding of the server of the repository: [class MemStorage]
    (imported as "./storage"), [registerRoutes], [setupUploadRoutes]
    ("./upload") and the table types of "@shared/schema".  Their source is
    the text that follows the page component in
    [client/src/pages/profile-page.tsx].

    Conventions of the embedding:
    - a JavaScript [Map<number, V>] is an association list in insertion
      order ([JSMap]); [Array.from(m.values())] is the list of its values;
    - identifiers, counters and timestamps ([Date.getTime()]) are integers;
      a coin amount is a [number], an integer or [NaN];
    - [new Date()] is the argument [now] of the operation that reads the clock;
    - an [async] method is the function it computes when it runs without
      interleaving; a [throw] keeps every mutation made before it. *)

From Stdlib Require Import ZArith List String Bool Lia.
From Stdlib Require Import Sorting.Sorted Sorting.Permutation.
Import ListNotations.
Open Scope string_scope.
Open Scope list_scope.
Open Scope Z_scope.

Set Implicit Arguments.

(** ** JavaScript [Map<number, V>], in insertion order *)

Module JSMap.
Section Defs.
Variable V : Type.

Definition t := list (Z * V).

Definition empty : t := [].

Fixpoint get (m : t) (k : Z) : option V :=
  match m with
  | [] => None
  | (k', v) :: r => if k' =? k then Some v else get r k
  end.

(* [Map.prototype.set]: an existing key keeps its position, a new key
   goes to the end. *)
Fixpoint set (m : t) (k : Z) (v : V) : t :=
  match m with
  | [] => [(k, v)]
  | (k', v') :: r => if k' =? k then (k, v) :: r else (k', v') :: set r k v
  end.

Fixpoint delete (m : t) (k : Z) : t :=
  match m with
  | [] => []
  | (k', v') :: r => if k' =? k then r else (k', v') :: delete r k
  end.

Definition keys (m : t) : list Z := map fst m.
Definition values (m : t) : list V := map snd m.
End Defs.
Arguments empty {V}.
End JSMap.

(** ** Numbers that may be missing *)

(** A value of static type [number | null | undefined] (a nullable integer
    column that a request may leave out). *)
Inductive MaybeNumber : Type :=
| Num (z : Z)
| Null
| Undefined.

(** The result of arithmetic on such values. *)
Inductive number : Type :=
| Int (z : Z)
| NaN.

Definition ToNumber (v : MaybeNumber) : number :=
  match v with
  | Num z => Int z
  | Null => Int 0
  | Undefined => NaN
  end.

Definition num_add (a b : number) : number :=
  match a, b with
  | Int x, Int y => Int (x + y)
  | _, _ => NaN
  end.

Definition num_neg (a : number) : number :=
  match a with
  | Int x => Int (- x)
  | NaN => NaN
  end.

(* [a < b]: false as soon as one side is NaN. *)
Definition num_lt (a b : number) : bool :=
  match a, b with
  | Int x, Int y => x <? y
  | _, _ => false
  end.

(** ** Array helpers *)

Section ArrayHelpers.
Variable A : Type.

(* [Array.prototype.sort(compareFn)] is stable: of two elements that
   compare equal the one that came first stays first.  With [fold_right]
   the element inserted was before every element already placed, so it
   goes in front of the first one it does not have to follow. *)
Fixpoint insert (compareFn : A -> A -> Z) (x : A) (l : list A) : list A :=
  match l with
  | [] => [x]
  | y :: r => if compareFn x y <=? 0 then x :: y :: r
              else y :: insert compareFn x r
  end.

Definition sort (compareFn : A -> A -> Z) (l : list A) : list A :=
  fold_right (insert compareFn) [] l.

(* [Array.prototype.slice(start, end)] with its relative indices. *)
Definition slice (start end_ : Z) (l : list A) : list A :=
  let len := Z.of_nat (List.length l) in
  let from := if start <? 0 then Z.max (len + start) 0 else Z.min start len in
  let to := if end_ <? 0 then Z.max (len + end_) 0 else Z.min end_ len in
  firstn (Z.to_nat (to - from)) (skipn (Z.to_nat from) l).

(* [Array.prototype.includes] on numbers. *)
Definition includes (l : list Z) (x : Z) : bool := existsb (Z.eqb x) l.
End ArrayHelpers.

(** ** Entities ([shared/schema.ts]) *)

Module InsertUser.
Record t : Type := mk { username : string; email : string; password : string }.
End InsertUser.

Module User.
Record t : Type := mk {
  id : Z;
  username : string;
  email : string;
  password : string;
  coins : number;
  avatarUrl : option string;
  createdAt : Z
}.
(* [{ ...user, coins: c }] *)
Definition with_coins (u : t) (c : number) : t :=
  mk (id u) (username u) (email u) (password u) c (avatarUrl u) (createdAt u).
End User.

(** [const { password, ...userWithoutPassword } = user] *)
Module UserWithoutPassword.
Record t : Type := mk {
  id : Z;
  username : string;
  email : string;
  coins : number;
  avatarUrl : option string;
  createdAt : Z
}.
Definition of_user (u : User.t) : t :=
  mk (User.id u) (User.username u) (User.email u) (User.coins u)
     (User.avatarUrl u) (User.createdAt u).
End UserWithoutPassword.

(** [isPremium] is only ever tested for truthiness, so a request that
    leaves it out is the one with [false]. *)
Module InsertNote.
Record t : Type := mk {
  title : string;
  description : string;
  userId : Z;
  category : string;
  fileUrl : string;
  fileName : string;
  fileSize : Z;
  fileType : string;
  isPremium : bool;
  coinPrice : MaybeNumber;
  previewPages : MaybeNumber;
  tags : option (list string)
}.
End InsertNote.

Module Note.
Record t : Type := mk {
  id : Z;
  title : string;
  description : string;
  userId : Z;
  category : string;
  fileUrl : string;
  fileName : string;
  fileSize : Z;
  fileType : string;
  isPremium : bool;
  coinPrice : MaybeNumber;
  previewPages : MaybeNumber;
  downloads : Z;
  likes : Z;
  tags : option (list string);
  createdAt : Z
}.
(* [{ ...insertNote, id, downloads: 0, likes: 0, createdAt: now }] *)
Definition of_insert (i : InsertNote.t) (id : Z) (now : Z) : t :=
  mk id (InsertNote.title i) (InsertNote.description i) (InsertNote.userId i)
     (InsertNote.category i) (InsertNote.fileUrl i) (InsertNote.fileName i)
     (InsertNote.fileSize i) (InsertNote.fileType i) (InsertNote.isPremium i)
     (InsertNote.coinPrice i) (InsertNote.previewPages i) 0 0
     (InsertNote.tags i) now.
Definition with_downloads (n : t) (d : Z) : t :=
  mk (id n) (title n) (description n) (userId n) (category n) (fileUrl n)
     (fileName n) (fileSize n) (fileType n) (isPremium n) (coinPrice n)
     (previewPages n) d (likes n) (tags n) (createdAt n).
Definition with_likes (n : t) (l : Z) : t :=
  mk (id n) (title n) (description n) (userId n) (category n) (fileUrl n)
     (fileName n) (fileSize n) (fileType n) (isPremium n) (coinPrice n)
     (previewPages n) (downloads n) l (tags n) (createdAt n).
End Note.

Module InsertComment.
Record t : Type := mk { noteId : Z; userId : Z; content : string }.
End InsertComment.

Module Comment.
Record t : Type := mk {
  id : Z; noteId : Z; userId : Z; content : string; createdAt : Z
}.
End Comment.

Module InsertDownload.
Record t : Type := mk { noteId : Z; userId : Z }.
End InsertDownload.

Module Download.
Record t : Type := mk { id : Z; noteId : Z; userId : Z; createdAt : Z }.
End Download.

Module InsertLike.
Record t : Type := mk { noteId : Z; userId : Z }.
End InsertLike.

Module Like.
Record t : Type := mk { id : Z; noteId : Z; userId : Z; createdAt : Z }.
End Like.

Module InsertDiscussion.
Record t : Type := mk {
  userId : Z; title : string; content : string; category : string
}.
End InsertDiscussion.

Module Discussion.
Record t : Type := mk {
  id : Z;
  userId : Z;
  title : string;
  content : string;
  category : string;
  likes : Z;
  views : Z;
  isPinned : bool;
  createdAt : Z;
  updatedAt : Z
}.
Definition with_views (d : t) (v : Z) : t :=
  mk (id d) (userId d) (title d) (content d) (category d) (likes d) v
     (isPinned d) (createdAt d) (updatedAt d).
End Discussion.

Module InsertDiscussionReply.
Record t : Type := mk {
  discussionId : Z;
  userId : Z;
  content : string;
  parentReplyId : option Z;
  attachmentUrl : option string;
  attachmentType : option string
}.
End InsertDiscussionReply.

Module DiscussionReply.
Record t : Type := mk {
  id : Z;
  discussionId : Z;
  userId : Z;
  content : string;
  parentReplyId : option Z;
  attachmentUrl : option string;
  attachmentType : option string;
  likes : Z;
  createdAt : Z;
  updatedAt : Z
}.
End DiscussionReply.

Module InsertFollow.
Record t : Type := mk { followerId : Z; followedId : Z }.
End InsertFollow.

Module Follow.
Record t : Type := mk { id : Z; followerId : Z; followedId : Z; createdAt : Z }.
End Follow.

Definition ALLOWED_FILE_TYPES : list string :=
  ["pdf"; "docx"; "txt"; "ppt"; "pptx"; "zip"; "csv"; "xlsx"; "json"; "md"; "tex"].

(** ** The store ([class MemStorage]) *)

Record MemStorage : Type := mkStorage {
  users : JSMap.t User.t;
  notes : JSMap.t Note.t;
  comments : JSMap.t Comment.t;
  downloads : JSMap.t Download.t;
  likes : JSMap.t Like.t;
  discussions : JSMap.t Discussion.t;
  discussionReplies : JSMap.t DiscussionReply.t;
  follows : JSMap.t Follow.t;
  currentUserId : Z;
  currentNoteId : Z;
  currentCommentId : Z;
  currentDownloadId : Z;
  currentLikeId : Z;
  currentDiscussionId : Z;
  currentDiscussionReplyId : Z;
  currentFollowId : Z
}.

(* [constructor()] *)
Definition new_MemStorage : MemStorage :=
  mkStorage JSMap.empty JSMap.empty JSMap.empty JSMap.empty
            JSMap.empty JSMap.empty JSMap.empty JSMap.empty
            1 1 1 1 1 1 1 1.

(* Assignments to one field of [this]. *)
Definition set_users x s :=
  mkStorage x (notes s) (comments s) (downloads s) (likes s) (discussions s)
    (discussionReplies s) (follows s) (currentUserId s) (currentNoteId s)
    (currentCommentId s) (currentDownloadId s) (currentLikeId s)
    (currentDiscussionId s) (currentDiscussionReplyId s) (currentFollowId s).
Definition set_notes x s :=
  mkStorage (users s) x (comments s) (downloads s) (likes s) (discussions s)
    (discussionReplies s) (follows s) (currentUserId s) (currentNoteId s)
    (currentCommentId s) (currentDownloadId s) (currentLikeId s)
    (currentDiscussionId s) (currentDiscussionReplyId s) (currentFollowId s).
Definition set_comments x s :=
  mkStorage (users s) (notes s) x (downloads s) (likes s) (discussions s)
    (discussionReplies s) (follows s) (currentUserId s) (currentNoteId s)
    (currentCommentId s) (currentDownloadId s) (currentLikeId s)
    (currentDiscussionId s) (currentDiscussionReplyId s) (currentFollowId s).
Definition set_downloads x s :=
  mkStorage (users s) (notes s) (comments s) x (likes s) (discussions s)
    (discussionReplies s) (follows s) (currentUserId s) (currentNoteId s)
    (currentCommentId s) (currentDownloadId s) (currentLikeId s)
    (currentDiscussionId s) (currentDiscussionReplyId s) (currentFollowId s).
Definition set_likes x s :=
  mkStorage (users s) (notes s) (comments s) (downloads s) x (discussions s)
    (discussionReplies s) (follows s) (currentUserId s) (currentNoteId s)
    (currentCommentId s) (currentDownloadId s) (currentLikeId s)
    (currentDiscussionId s) (currentDiscussionReplyId s) (currentFollowId s).
Definition set_discussions x s :=
  mkStorage (users s) (notes s) (comments s) (downloads s) (likes s) x
    (discussionReplies s) (follows s) (currentUserId s) (currentNoteId s)
    (currentCommentId s) (currentDownloadId s) (currentLikeId s)
    (currentDiscussionId s) (currentDiscussionReplyId s) (currentFollowId s).
Definition set_discussionReplies x s :=
  mkStorage (users s) (notes s) (comments s) (downloads s) (likes s)
    (discussions s) x (follows s) (currentUserId s) (currentNoteId s)
    (currentCommentId s) (currentDownloadId s) (currentLikeId s)
    (currentDiscussionId s) (currentDiscussionReplyId s) (currentFollowId s).
Definition set_follows x s :=
  mkStorage (users s) (notes s) (comments s) (downloads s) (likes s)
    (discussions s) (discussionReplies s) x (currentUserId s)
    (currentNoteId s) (currentCommentId s) (currentDownloadId s)
    (currentLikeId s) (currentDiscussionId s) (currentDiscussionReplyId s)
    (currentFollowId s) .
Definition set_currentUserId x s :=
  mkStorage (users s) (notes s) (comments s) (downloads s) (likes s)
    (discussions s) (discussionReplies s) (follows s) x (currentNoteId s)
    (currentCommentId s) (currentDownloadId s) (currentLikeId s)
    (currentDiscussionId s) (currentDiscussionReplyId s) (currentFollowId s).
Definition set_currentNoteId x s :=
  mkStorage (users s) (notes s) (comments s) (downloads s) (likes s)
    (discussions s) (discussionReplies s) (follows s) (currentUserId s) x
    (currentCommentId s) (currentDownloadId s) (currentLikeId s)
    (currentDiscussionId s) (currentDiscussionReplyId s) (currentFollowId s).
Definition set_currentCommentId x s :=
  mkStorage (users s) (notes s) (comments s) (downloads s) (likes s)
    (discussions s) (discussionReplies s) (follows s) (currentUserId s)
    (currentNoteId s) x (currentDownloadId s) (currentLikeId s)
    (currentDiscussionId s) (currentDiscussionReplyId s) (currentFollowId s).
Definition set_currentDownloadId x s :=
  mkStorage (users s) (notes s) (comments s) (downloads s) (likes s)
    (discussions s) (discussionReplies s) (follows s) (currentUserId s)
    (currentNoteId s) (currentCommentId s) x (currentLikeId s)
    (currentDiscussionId s) (currentDiscussionReplyId s) (currentFollowId s).
Definition set_currentLikeId x s :=
  mkStorage (users s) (notes s) (comments s) (downloads s) (likes s)
    (discussions s) (discussionReplies s) (follows s) (currentUserId s)
    (currentNoteId s) (currentCommentId s) (currentDownloadId s) x
    (currentDiscussionId s) (currentDiscussionReplyId s) (currentFollowId s).
Definition set_currentDiscussionId x s :=
  mkStorage (users s) (notes s) (comments s) (downloads s) (likes s)
    (discussions s) (discussionReplies s) (follows s) (currentUserId s)
    (currentNoteId s) (currentCommentId s) (currentDownloadId s)
    (currentLikeId s) x (currentDiscussionReplyId s) (currentFollowId s) .
Definition set_currentDiscussionReplyId x s :=
  mkStorage (users s) (notes s) (comments s) (downloads s) (likes s)
    (discussions s) (discussionReplies s) (follows s) (currentUserId s)
    (currentNoteId s) (currentCommentId s) (currentDownloadId s)
    (currentLikeId s) (currentDiscussionId s) x (currentFollowId s) .
Definition set_currentFollowId x s :=
  mkStorage (users s) (notes s) (comments s) (downloads s) (likes s)
    (discussions s) (discussionReplies s) (follows s) (currentUserId s)
    (currentNoteId s) (currentCommentId s) (currentDownloadId s)
    (currentLikeId s) (currentDiscussionId s) (currentDiscussionReplyId s) x.

Arguments set_users x s /.
Arguments set_notes x s /.
Arguments set_comments x s /.
Arguments set_downloads x s /.
Arguments set_likes x s /.
Arguments set_discussions x s /.
Arguments set_discussionReplies x s /.
Arguments set_follows x s /.
Arguments set_currentUserId x s /.
Arguments set_currentNoteId x s /.
Arguments set_currentCommentId x s /.
Arguments set_currentDownloadId x s /.
Arguments set_currentLikeId x s /.
Arguments set_currentDiscussionId x s /.
Arguments set_currentDiscussionReplyId x s /.
Arguments set_currentFollowId x s /.

(** ** Methods that mutate the store and may throw

    A [throw] does not undo what the method has already written, so the
    store is returned next to the outcome in both cases. *)

Inductive StorageError : Type :=
| UserNotFound (userId : Z)
| NoteNotFound (noteId : Z)
| DiscussionNotFound (discussionId : Z).

Inductive Outcome (A : Type) : Type :=
| Returned (a : A)
| Thrown (e : StorageError).
Arguments Thrown {A} e.

Definition M (A : Type) : Type := MemStorage -> Outcome A * MemStorage.

Definition ret {A} (a : A) : M A := fun s => (Returned a, s).
Definition throw {A} (e : StorageError) : M A := fun s => (Thrown e, s).
Definition bind {A B} (m : M A) (f : A -> M B) : M B :=
  fun s => match m s with
           | (Returned a, s') => f a s'
           | (Thrown e, s') => (Thrown e, s')
           end.
Definition read {A} (f : MemStorage -> A) : M A := fun s => (Returned (f s), s).
Definition write (f : MemStorage -> MemStorage) : M unit :=
  fun s => (Returned tt, f s).

Declare Scope storage_scope.
Delimit Scope storage_scope with storage.
Notation "x <- m ;; k" := (bind m (fun x => k))
  (at level 61, m at next level, right associativity) : storage_scope.
Notation "m ;; k" := (bind m (fun _ => k))
  (at level 61, right associativity) : storage_scope.
Open Scope storage_scope.

Definition isSome {A} (o : option A) : bool :=
  match o with Some _ => true | None => false end.

(** *** Users *)

Definition getUser (id : Z) : M (option User.t) :=
  read (fun s => JSMap.get (users s) id).

Definition createUser (insertUser : InsertUser.t) (now : Z) : M User.t :=
  id <- read currentUserId ;;
  write (set_currentUserId (id + 1)) ;;
  let user := User.mk id (InsertUser.username insertUser)
                (InsertUser.email insertUser) (InsertUser.password insertUser)
                (Int 0) None now in
  write (fun s => set_users (JSMap.set (users s) id user) s) ;;
  ret user.

Definition updateUserCoins (userId : Z) (coins : number) : M User.t :=
  user <- getUser userId ;;
  match user with
  | None => throw (UserNotFound userId)
  | Some user =>
      let updatedUser := User.with_coins user (num_add (User.coins user) coins) in
      write (fun s => set_users (JSMap.set (users s) userId updatedUser) s) ;;
      ret updatedUser
  end.

(** *** Notes *)

Definition getNoteById (id : Z) : M (option Note.t) :=
  read (fun s => JSMap.get (notes s) id).

Definition createNote (insertNote : InsertNote.t) (now : Z) : M Note.t :=
  id <- read currentNoteId ;;
  write (set_currentNoteId (id + 1)) ;;
  let note := Note.of_insert insertNote id now in
  write (fun s => set_notes (JSMap.set (notes s) id note) s) ;;
  let coinsToAward := if Note.isPremium note then Int 10 else Int 5 in
  updateUserCoins (Note.userId note) coinsToAward ;;
  ret note.

Definition getRecentNotes (limit : Z) (s : MemStorage) : list Note.t :=
  slice 0 limit
    (sort (fun a b => Note.createdAt b - Note.createdAt a)
          (JSMap.values (notes s))).

Definition updateNoteDownloads (noteId : Z) : M Note.t :=
  note <- getNoteById noteId ;;
  match note with
  | None => throw (NoteNotFound noteId)
  | Some note =>
      let updatedNote := Note.with_downloads note (Note.downloads note + 1) in
      write (fun s => set_notes (JSMap.set (notes s) noteId updatedNote) s) ;;
      ret updatedNote
  end.

Definition updateNoteLikes (noteId : Z) (increment : bool) : M Note.t :=
  note <- getNoteById noteId ;;
  match note with
  | None => throw (NoteNotFound noteId)
  | Some note =>
      let updatedLikes :=
        if increment then Note.likes note + 1 else Note.likes note - 1 in
      let updatedNote := Note.with_likes note (Z.max 0 updatedLikes) in
      write (fun s => set_notes (JSMap.set (notes s) noteId updatedNote) s) ;;
      ret updatedNote
  end.

(** *** Comments, downloads, likes *)

Definition createComment (insertComment : InsertComment.t) (now : Z)
  : M Comment.t :=
  id <- read currentCommentId ;;
  write (set_currentCommentId (id + 1)) ;;
  let comment := Comment.mk id (InsertComment.noteId insertComment)
                   (InsertComment.userId insertComment)
                   (InsertComment.content insertComment) now in
  write (fun s => set_comments (JSMap.set (comments s) id comment) s) ;;
  ret comment.

Definition recordDownload (insertDownload : InsertDownload.t) (now : Z)
  : M Download.t :=
  id <- read currentDownloadId ;;
  write (set_currentDownloadId (id + 1)) ;;
  let download := Download.mk id (InsertDownload.noteId insertDownload)
                    (InsertDownload.userId insertDownload) now in
  write (fun s => set_downloads (JSMap.set (downloads s) id download) s) ;;
  updateNoteDownloads (InsertDownload.noteId insertDownload) ;;
  ret download.

Definition getLikeByUserAndNote (userId noteId : Z) : M (option Like.t) :=
  read (fun s =>
    find (fun like => (Like.userId like =? userId) && (Like.noteId like =? noteId))
         (JSMap.values (likes s))).

Definition createOrToggleLike (insertLike : InsertLike.t) (now : Z)
  : M (option Like.t) :=
  existingLike <- getLikeByUserAndNote (InsertLike.userId insertLike)
                                       (InsertLike.noteId insertLike) ;;
  match existingLike with
  | Some existingLike =>
      write (fun s => set_likes (JSMap.delete (likes s) (Like.id existingLike)) s) ;;
      updateNoteLikes (InsertLike.noteId insertLike) false ;;
      ret None
  | None =>
      id <- read currentLikeId ;;
      write (set_currentLikeId (id + 1)) ;;
      let like := Like.mk id (InsertLike.noteId insertLike)
                    (InsertLike.userId insertLike) now in
      write (fun s => set_likes (JSMap.set (likes s) id like) s) ;;
      updateNoteLikes (InsertLike.noteId insertLike) true ;;
      ret (Some like)
  end.

(** *** Discussions and replies *)

Definition createDiscussion (insertDiscussion : InsertDiscussion.t) (now : Z)
  : M Discussion.t :=
  id <- read currentDiscussionId ;;
  write (set_currentDiscussionId (id + 1)) ;;
  let discussion :=
    Discussion.mk id (InsertDiscussion.userId insertDiscussion)
      (InsertDiscussion.title insertDiscussion)
      (InsertDiscussion.content insertDiscussion)
      (InsertDiscussion.category insertDiscussion) 0 0 false now now in
  write (fun s => set_discussions (JSMap.set (discussions s) id discussion) s) ;;
  ret discussion.

Definition getDiscussionById (id : Z) : M (option Discussion.t) :=
  read (fun s => JSMap.get (discussions s) id).

Definition updateDiscussionViews (discussionId : Z) : M Discussion.t :=
  discussion <- getDiscussionById discussionId ;;
  match discussion with
  | None => throw (DiscussionNotFound discussionId)
  | Some discussion =>
      let updatedDiscussion :=
        Discussion.with_views discussion (Discussion.views discussion + 1) in
      write (fun s => set_discussions
                        (JSMap.set (discussions s) discussionId updatedDiscussion) s) ;;
      ret updatedDiscussion
  end.

Definition createDiscussionReply (insertReply : InsertDiscussionReply.t) (now : Z)
  : M DiscussionReply.t :=
  id <- read currentDiscussionReplyId ;;
  write (set_currentDiscussionReplyId (id + 1)) ;;
  let reply :=
    DiscussionReply.mk id (InsertDiscussionReply.discussionId insertReply)
      (InsertDiscussionReply.userId insertReply)
      (InsertDiscussionReply.content insertReply)
      (InsertDiscussionReply.parentReplyId insertReply)
      (InsertDiscussionReply.attachmentUrl insertReply)
      (InsertDiscussionReply.attachmentType insertReply) 0 now now in
  write (fun s => set_discussionReplies
                    (JSMap.set (discussionReplies s) id reply) s) ;;
  ret reply.

Definition getDiscussionRepliesByDiscussionId (discussionId : Z) (s : MemStorage)
  : list DiscussionReply.t :=
  sort (fun a b => DiscussionReply.createdAt a - DiscussionReply.createdAt b)
       (filter (fun reply => DiscussionReply.discussionId reply =? discussionId)
               (JSMap.values (discussionReplies s))).

(** *** Follows *)

Definition createFollow (insertFollow : InsertFollow.t) (now : Z) : M Follow.t :=
  id <- read currentFollowId ;;
  write (set_currentFollowId (id + 1)) ;;
  let follow := Follow.mk id (InsertFollow.followerId insertFollow)
                  (InsertFollow.followedId insertFollow) now in
  write (fun s => set_follows (JSMap.set (follows s) id follow) s) ;;
  ret follow.

Definition getFollowByIds (followerId followedId : Z) : M (option Follow.t) :=
  read (fun s =>
    find (fun follow => (Follow.followerId follow =? followerId)
                        && (Follow.followedId follow =? followedId))
         (JSMap.values (follows s))).

Definition removeFollow (followerId followedId : Z) : M unit :=
  follow <- getFollowByIds followerId followedId ;;
  match follow with
  | Some follow =>
      write (fun s => set_follows (JSMap.delete (follows s) (Follow.id follow)) s)
  | None => ret tt
  end.

Definition getFollowersByUserId (userId : Z) (s : MemStorage) : list User.t :=
  let followerIds :=
    map Follow.followerId
        (filter (fun follow => Follow.followedId follow =? userId)
                (JSMap.values (follows s))) in
  filter (fun user => includes followerIds (User.id user))
         (JSMap.values (users s)).

Definition getFollowingByUserId (userId : Z) (s : MemStorage) : list User.t :=
  let followingIds :=
    map Follow.followedId
        (filter (fun follow => Follow.followerId follow =? userId)
                (JSMap.values (follows s))) in
  filter (fun user => includes followingIds (User.id user))
         (JSMap.values (users s)).

(** ** Request handlers ([registerRoutes], [setupUploadRoutes])

    A handler takes the authenticated user ([req.user!.id], [None] when
    [req.isAuthenticated()] is false), the route parameters and a body
    already typed as its insert schema requires ([schema.parse] succeeds on
    it), and yields the response together with the store it leaves. *)

Inductive Response (A : Type) : Type :=
| Status200 (body : A)
| Status201 (body : A)
| Status400 (message : string)
| Status401 (message : string)
| Status403 (message : string) (required : MaybeNumber) (available : number)
| Status404 (message : string)
| Status500 (message : string).
Arguments Status400 {A} message.
Arguments Status401 {A} message.
Arguments Status403 {A} message required available.
Arguments Status404 {A} message.
Arguments Status500 {A} message.

Definition Handler (A : Type) : Type := MemStorage -> Response A * MemStorage.

(* [try { ... } catch (error) { res.status(500).json({ message }) }] *)
Definition try_catch {A} (body : M (Response A)) (message : string) : Handler A :=
  fun s => match body s with
           | (Returned r, s') => (r, s')
           | (Thrown _, s') => (Status500 message, s')
           end.

Definition authenticated {A} (auth : option Z) (k : Z -> Handler A) : Handler A :=
  match auth with
  | None => fun s => (Status401 "Unauthorized", s)
  | Some userId => k userId
  end.

(* [Number(req.query.limit) || d] *)
Definition limit_or (q : option Z) (d : Z) : Z :=
  match q with
  | Some z => if z =? 0 then d else z
  | None => d
  end.

Definition recent_handler (q : option Z) : Handler (list Note.t) :=
  try_catch (notes <- read (getRecentNotes (limit_or q 6)) ;;
             ret (Status200 notes))
            "Failed to fetch recent notes".

Definition comment_handler (auth : option Z) (noteId : Z) (content : string)
  (now : Z) : Handler Comment.t :=
  authenticated auth (fun userId =>
    try_catch (
      note <- getNoteById noteId ;;
      match note with
      | None => ret (Status404 "Note not found")
      | Some _ =>
          comment <- createComment (InsertComment.mk noteId userId content) now ;;
          ret (Status201 comment)
      end) "Failed to create comment").

Definition like_handler (auth : option Z) (noteId : Z) (now : Z) : Handler bool :=
  authenticated auth (fun userId =>
    try_catch (
      note <- getNoteById noteId ;;
      match note with
      | None => ret (Status404 "Note not found")
      | Some _ =>
          result <- createOrToggleLike (InsertLike.mk noteId userId) now ;;
          ret (Status200 (isSome result))
      end) "Failed to process like").

Module DownloadOk.
Record t : Type := mk { message : string; fileUrl : string; fileName : string }.
End DownloadOk.

Definition download_handler (auth : option Z) (noteId : Z) (now : Z)
  : Handler DownloadOk.t :=
  authenticated auth (fun userId =>
    try_catch (
      note <- getNoteById noteId ;;
      match note with
      | None => ret (Status404 "Note not found")
      | Some note =>
          let finish : M (Response DownloadOk.t) :=
            recordDownload (InsertDownload.mk noteId userId) now ;;
            ret (Status200 (DownloadOk.mk "Download successful"
                              (Note.fileUrl note) (Note.fileName note))) in
          if Note.isPremium note then
            user <- getUser userId ;;
            match user with
            | None => ret (Status404 "User not found")
            | Some user =>
                if num_lt (User.coins user) (ToNumber (Note.coinPrice note)) then
                  ret (Status403 "Insufficient coins" (Note.coinPrice note)
                                 (User.coins user))
                else
                  updateUserCoins userId (num_neg (ToNumber (Note.coinPrice note))) ;;
                  (if negb (userId =? Note.userId note) then
                     updateUserCoins (Note.userId note)
                       (ToNumber (Note.coinPrice note)) ;; ret tt
                   else ret tt) ;;
                  finish
            end
          else finish
      end) "Failed to process download").

Definition user_handler (userId : Z) : Handler UserWithoutPassword.t :=
  try_catch (
    user <- getUser userId ;;
    match user with
    | None => ret (Status404 "User not found")
    | Some user => ret (Status200 (UserWithoutPassword.of_user user))
    end) "Failed to fetch user".

Definition follow_handler (auth : option Z) (followedId : Z) (now : Z)
  : Handler bool :=
  authenticated auth (fun followerId =>
    try_catch (
      if followerId =? followedId then ret (Status400 "Cannot follow yourself")
      else
        followedUser <- getUser followedId ;;
        match followedUser with
        | None => ret (Status404 "User to follow not found")
        | Some _ =>
            existingFollow <- getFollowByIds followerId followedId ;;
            match existingFollow with
            | Some _ =>
                removeFollow followerId followedId ;;
                ret (Status200 false)
            | None =>
                createFollow (InsertFollow.mk followerId followedId) now ;;
                ret (Status200 true)
            end
        end) "Failed to process follow request").

Definition followers_handler (userId : Z) : Handler (list User.t) :=
  try_catch (followers <- read (getFollowersByUserId userId) ;;
             ret (Status200 followers))
            "Failed to fetch followers".

Definition following_handler (userId : Z) : Handler (list User.t) :=
  try_catch (following <- read (getFollowingByUserId userId) ;;
             ret (Status200 following))
            "Failed to fetch following users".

Definition discussion_handler (id : Z) : Handler Discussion.t :=
  try_catch (
    discussion <- getDiscussionById id ;;
    match discussion with
    | None => ret (Status404 "Discussion not found")
    | Some discussion =>
        updateDiscussionViews id ;;
        ret (Status200 discussion)
    end) "Failed to fetch discussion".

Definition create_discussion_handler (auth : option Z) (title content category : string)
  (now : Z) : Handler Discussion.t :=
  authenticated auth (fun userId =>
    try_catch (
      discussion <- createDiscussion
                      (InsertDiscussion.mk userId title content category) now ;;
      ret (Status201 discussion)) "Failed to create discussion").

Definition replies_handler (discussionId : Z) : Handler (list DiscussionReply.t) :=
  try_catch (replies <- read (getDiscussionRepliesByDiscussionId discussionId) ;;
             ret (Status200 replies))
            "Failed to fetch discussion replies".

(** The body of a reply request: [content] and the optional fields. *)
Module ReplyBody.
Record t : Type := mk {
  content : string;
  parentReplyId : option Z;
  attachmentUrl : option string;
  attachmentType : option string
}.
End ReplyBody.

Definition reply_handler (auth : option Z) (discussionId : Z) (body : ReplyBody.t)
  (now : Z) : Handler DiscussionReply.t :=
  authenticated auth (fun userId =>
    try_catch (
      discussion <- getDiscussionById discussionId ;;
      match discussion with
      | None => ret (Status404 "Discussion not found")
      | Some _ =>
          let replyData :=
            InsertDiscussionReply.mk discussionId userId (ReplyBody.content body)
              (ReplyBody.parentReplyId body) (ReplyBody.attachmentUrl body)
              (ReplyBody.attachmentType body) in
          reply <- createDiscussionReply replyData now ;;
          ret (Status201 reply)
      end) "Failed to create reply").

(** The upload request: [fileData] and the note fields next to it. *)
Module FileData.
Record t : Type := mk { fileName : option string; fileSize : option Z }.
End FileData.

Module UploadBody.
Record t : Type := mk {
  fileData : option FileData.t;
  title : string;
  description : string;
  category : string;
  isPremium : bool;
  coinPrice : MaybeNumber;
  previewPages : MaybeNumber;
  tags : option (list string)
}.
End UploadBody.

Section Upload.
(* [path.extname(name).slice(1).toLowerCase()], from Node's library. *)
Variable fileExtOf : string -> string.

Definition upload_handler (auth : option Z) (body : UploadBody.t)
  (uniqueId : string) (now : Z) : Handler Note.t :=
  authenticated auth (fun userId =>
    try_catch (
      match UploadBody.fileData body with
      | None => ret (Status400 "File data is required")
      | Some fileData =>
          match FileData.fileName fileData with
          | None => ret (Status400 "File data is required")
          | Some name =>
              if (name =? "")%string then ret (Status400 "File data is required")
              else
                let fileExt := fileExtOf name in
                if negb (existsb (String.eqb fileExt) ALLOWED_FILE_TYPES) then
                  ret (Status400 ("File type not supported. Allowed types: "
                                  ++ String.concat ", " ALLOWED_FILE_TYPES)%string)
                else
                  let fileName := (uniqueId ++ "-" ++ name)%string in
                  let fileUrl := ("/api/files/" ++ fileName)%string in
                  let fileSize :=
                    match FileData.fileSize fileData with
                    | Some z => z
                    | None => 0
                    end in
                  let validatedData :=
                    InsertNote.mk (UploadBody.title body)
                      (UploadBody.description body) userId
                      (UploadBody.category body) fileUrl name fileSize fileExt
                      (UploadBody.isPremium body) (UploadBody.coinPrice body)
                      (UploadBody.previewPages body) (UploadBody.tags body) in
                  note <- createNote validatedData now ;;
                  ret (Status201 note)
          end
      end) "Failed to upload note").
End Upload.

(** ** Operations and reachable stores

    One constructor per request that changes the store, each as its handler
    issues it for an authenticated user; [OpCreateUser] is registration and
    [OpCreateNote] the [createNote] call of the upload handler. *)

Inductive Op : Type :=
| OpCreateUser (insertUser : InsertUser.t)
| OpCreateNote (insertNote : InsertNote.t)
| OpComment (userId noteId : Z) (content : string)
| OpLike (userId noteId : Z)
| OpDownload (userId noteId : Z)
| OpFollow (followerId followedId : Z)
| OpCreateDiscussion (userId : Z) (title content category : string)
| OpViewDiscussion (id : Z)
| OpReply (userId discussionId : Z) (body : ReplyBody.t).

Definition exec (op : Op) (now : Z) (s : MemStorage) : MemStorage :=
  match op with
  | OpCreateUser i => snd (createUser i now s)
  | OpCreateNote i => snd (createNote i now s)
  | OpComment u n c => snd (comment_handler (Some u) n c now s)
  | OpLike u n => snd (like_handler (Some u) n now s)
  | OpDownload u n => snd (download_handler (Some u) n now s)
  | OpFollow a b => snd (follow_handler (Some a) b now s)
  | OpCreateDiscussion u t c g => snd (create_discussion_handler (Some u) t c g now s)
  | OpViewDiscussion d => snd (discussion_handler d s)
  | OpReply u d b => snd (reply_handler (Some u) d b now s)
  end.

Fixpoint run (trace : list (Op * Z)) (s : MemStorage) : MemStorage :=
  match trace with
  | [] => s
  | (op, now) :: rest => run rest (exec op now s)
  end.

(** Stores reachable by operations that all satisfy [allowed]. *)
Inductive reachable_by (allowed : Op -> Prop) : MemStorage -> Prop :=
| reach_new : reachable_by allowed new_MemStorage
| reach_step : forall s op now,
    reachable_by allowed s -> allowed op ->
    reachable_by allowed (exec op now s).

Definition reachable : MemStorage -> Prop := reachable_by (fun _ => True).

(** ** Derived quantities the properties speak about *)

(* Number of elements of [l] that satisfy [p]. *)
Definition count {A} (p : A -> bool) (l : list A) : Z :=
  Z.of_nat (List.length (filter p l)).

Definition download_count (s : MemStorage) (noteId : Z) : Z :=
  count (fun d => Download.noteId d =? noteId) (JSMap.values (downloads s)).

Definition like_count (s : MemStorage) (noteId : Z) : Z :=
  count (fun l => Like.noteId l =? noteId) (JSMap.values (likes s)).

Definition is_like_of (userId noteId : Z) (like : Like.t) : bool :=
  (Like.userId like =? userId) && (Like.noteId like =? noteId).

Definition is_follow_of (followerId followedId : Z) (follow : Follow.t) : bool :=
  (Follow.followerId follow =? followerId) && (Follow.followedId follow =? followedId).

(* Is there a Like record of the user for the note? *)
Definition liked (s : MemStorage) (userId noteId : Z) : bool :=
  existsb (is_like_of userId noteId) (JSMap.values (likes s)).

Definition follow_count (s : MemStorage) (followerId followedId : Z) : Z :=
  count (is_follow_of followerId followedId) (JSMap.values (follows s)).

Definition balance (s : MemStorage) (userId : Z) : option number :=
  option_map User.coins (JSMap.get (users s) userId).

(* A map whose keys were handed out by a counter now at [next]: ascending
   in insertion order, below [next], each stored under its own [id]. *)
Definition keyed {V} (idf : V -> Z) (m : JSMap.t V) (next : Z) : Prop :=
  StronglySorted Z.lt (JSMap.keys m) /\
  Forall (fun kv => idf (snd kv) = fst kv /\ fst kv < next) m.

(* Every event record of [m] names a note that is stored. *)
Definition refer {V} (noteIdOf : V -> Z) (ns : JSMap.t Note.t) (m : JSMap.t V)
  : Prop :=
  Forall (fun e => JSMap.get ns (noteIdOf e) <> None) (JSMap.values m).

(* The counter [field] of every stored note is the number of event records
   of [m] that name it. *)
Definition counted {V} (noteIdOf : V -> Z) (field : Note.t -> Z)
  (ns : JSMap.t Note.t) (m : JSMap.t V) : Prop :=
  forall k n, JSMap.get ns k = Some n ->
              field n = count (fun e => noteIdOf e =? k) (JSMap.values m).

(** What every reachable store satisfies. *)
Record consistent (s : MemStorage) : Prop := mkConsistent {
  users_keyed : keyed User.id (users s) (currentUserId s);
  notes_keyed : keyed Note.id (notes s) (currentNoteId s);
  downloads_keyed : keyed Download.id (downloads s) (currentDownloadId s);
  likes_keyed : keyed Like.id (likes s) (currentLikeId s);
  follows_keyed : keyed Follow.id (follows s) (currentFollowId s);
  downloads_refer : refer Download.noteId (notes s) (downloads s);
  likes_refer : refer Like.noteId (notes s) (likes s);
  downloads_counted : counted Download.noteId Note.downloads (notes s) (downloads s);
  likes_counted : counted Like.noteId Note.likes (notes s) (likes s);
  likes_unique :
    forall u n, count (is_like_of u n) (JSMap.values (likes s)) <= 1;
  follows_unique :
    forall a b, count (is_follow_of a b) (JSMap.values (follows s)) <= 1
}.

(* The [compareFn] of [getRecentNotes]. *)
Definition newest_first (a b : Note.t) : Z := Note.createdAt b - Note.createdAt a.

(** The order of [recent] as the code produces it, and as the specification
    words it. *)
Definition recent_order (a b : Note.t) : Prop :=
  Note.createdAt a > Note.createdAt b \/
  (Note.createdAt a = Note.createdAt b /\ Note.id a < Note.id b).

Definition recent_order_spec (a b : Note.t) : Prop :=
  Note.createdAt a > Note.createdAt b \/
  (Note.createdAt a = Note.createdAt b /\ Note.id a > Note.id b).

(* A price the data model admits: a number that is not negative, or null. *)
Definition price_ok (p : MaybeNumber) : Prop :=
  match p with
  | Num z => 0 <= z
  | Null => True
  | Undefined => False
  end.

Definition nonneg_prices (op : Op) : Prop :=
  match op with
  | OpCreateNote i => price_ok (InsertNote.coinPrice i)
  | _ => True
  end.

Definition nonneg_coins (s : MemStorage) : Prop :=
  Forall (fun u => exists c, User.coins u = Int c /\ 0 <= c) (JSMap.values (users s)).

Definition prices_ok (s : MemStorage) : Prop :=
  Forall (fun n => price_ok (Note.coinPrice n)) (JSMap.values (notes s)).

(* [{ ...user, password: pw }], and the store with one stored credential
   replaced. *)
Definition with_password (u : User.t) (pw : string) : User.t :=
  User.mk (User.id u) (User.username u) (User.email u) pw (User.coins u)
          (User.avatarUrl u) (User.createdAt u).

Definition change_password (userId : Z) (pw : string) (s : MemStorage) : MemStorage :=
  match JSMap.get (users s) userId with
  | Some u => set_users (JSMap.set (users s) userId (with_password u pw)) s
  | None => s
  end.

(** ** The remaining queries of [MemStorage] and their handlers *)

(* [m.get(k) || 0] *)
Definition or_zero (o : option Z) : Z :=
  match o with
  | Some z => z
  | None => 0
  end.

Definition getNotesByUserId (userId : Z) (s : MemStorage) : list Note.t :=
  filter (fun note => Note.userId note =? userId) (JSMap.values (notes s)).

Definition getAllNotes (page limit : Z) (s : MemStorage) : list Note.t :=
  let allNotes := JSMap.values (notes s) in
  let start := (page - 1) * limit in
  slice start (start + limit)
    (sort (fun a b => Note.createdAt b - Note.createdAt a) allNotes).

Definition getTrendingNotes (limit : Z) (s : MemStorage) : list Note.t :=
  slice 0 limit
    (sort (fun a b => (Note.downloads b + Note.likes b)
                      - (Note.downloads a + Note.likes a))
          (JSMap.values (notes s))).

Definition getCommentsByNoteId (noteId : Z) (s : MemStorage) : list Comment.t :=
  sort (fun a b => Comment.createdAt b - Comment.createdAt a)
       (filter (fun comment => Comment.noteId comment =? noteId)
               (JSMap.values (comments s))).

Definition getDownloadsByUserId (userId : Z) (s : MemStorage) : list Download.t :=
  sort (fun a b => Download.createdAt b - Download.createdAt a)
       (filter (fun download => Download.userId download =? userId)
               (JSMap.values (downloads s))).

Definition getUserDownloads (userId : Z) (s : MemStorage) : list Download.t :=
  getDownloadsByUserId userId s.

Definition getUserLikes (userId : Z) (s : MemStorage) : list Like.t :=
  sort (fun a b => Like.createdAt b - Like.createdAt a)
       (filter (fun like => Like.userId like =? userId)
               (JSMap.values (likes s))).

(* The loop [for (const note of this.notes.values())] that fills
   [userUploads], a [Map<number, number>]. *)
Definition userUploads (s : MemStorage) : JSMap.t Z :=
  fold_left (fun m note =>
               let count := or_zero (JSMap.get m (Note.userId note)) in
               JSMap.set m (Note.userId note) (count + 1))
            (JSMap.values (notes s)) JSMap.empty.

Definition getTopContributors (limit : Z) (s : MemStorage) : list User.t :=
  map fst
      (slice 0 limit
         (sort (fun a b => snd b - snd a)
               (map (fun user => (user, or_zero (JSMap.get (userUploads s) (User.id user))))
                    (JSMap.values (users s))))).

(** A [Map<string, V>], in insertion order. *)
Module StrMap.
Section Defs.
Variable V : Type.

Definition t := list (string * V).

Fixpoint get (m : t) (k : string) : option V :=
  match m with
  | [] => None
  | (k', v) :: r => if (k' =? k)%string then Some v else get r k
  end.

Fixpoint set (m : t) (k : string) (v : V) : t :=
  match m with
  | [] => [(k, v)]
  | (k', v') :: r =>
      if (k' =? k)%string then (k, v) :: r else (k', v') :: set r k v
  end.
End Defs.
End StrMap.

Module CategoryCount.
Record t : Type := mk { name : string; count : Z }.
End CategoryCount.

(* The loop of [getCategories] over the notes. *)
Definition categories_of (l : list Note.t) : StrMap.t Z :=
  fold_left (fun m note =>
               let count := or_zero (StrMap.get m (Note.category note)) in
               StrMap.set m (Note.category note) (count + 1))
            l [].

Definition getCategories (s : MemStorage) : list CategoryCount.t :=
  map (fun e => CategoryCount.mk (fst e) (snd e))
      (categories_of (JSMap.values (notes s))).

(* [new Set(xs)] on numbers: the elements in the order of their first
   occurrence; [.size] is its length. *)
Definition new_Set (xs : list Z) : list Z :=
  fold_left (fun acc x => if includes acc x then acc else acc ++ [x]) xs [].

Definition note_handler (id : Z) : Handler Note.t :=
  try_catch (
    note <- getNoteById id ;;
    match note with
    | None => ret (Status404 "Note not found")
    | Some note => ret (Status200 note)
    end) "Failed to fetch note".

Definition is_following_handler (auth : option Z) (followedId : Z) : Handler bool :=
  authenticated auth (fun followerId =>
    try_catch (
      existingFollow <- getFollowByIds followerId followedId ;;
      ret (Status200 (isSome existingFollow)))
      "Failed to check follow status").

Module UserStats.
Record t : Type := mk { uploads : Z; downloads : Z; coins : number; likes : Z }.
End UserStats.

Definition stats_handler (auth : option Z) : Handler UserStats.t :=
  authenticated auth (fun userId =>
    try_catch (
      user <- getUser userId ;;
      match user with
      | None => ret (Status404 "User not found")
      | Some user =>
          userNotes <- read (getNotesByUserId userId) ;;
          userDownloads <- read (getDownloadsByUserId userId) ;;
          let uniqueDownloads := new_Set (map Download.noteId userDownloads) in
          let totalLikes :=
            fold_left (fun acc note => acc + Note.likes note) userNotes 0 in
          ret (Status200 (UserStats.mk (Z.of_nat (List.length userNotes))
                            (Z.of_nat (List.length uniqueDownloads))
                            (User.coins user) totalLikes))
      end) "Failed to fetch user stats").

(** The requests that can write to the store, and the status each is
    answered with. *)
Inductive Request : Type :=
| ReqUpload (auth : option Z) (body : UploadBody.t) (uniqueId : string)
| ReqComment (auth : option Z) (noteId : Z) (content : string)
| ReqLike (auth : option Z) (noteId : Z)
| ReqDownload (auth : option Z) (noteId : Z)
| ReqFollow (auth : option Z) (followedId : Z)
| ReqCreateDiscussion (auth : option Z) (title content category : string)
| ReqViewDiscussion (id : Z)
| ReqReply (auth : option Z) (discussionId : Z) (body : ReplyBody.t).

Definition status {A} (r : Response A) : Z :=
  match r with
  | Status200 _ => 200
  | Status201 _ => 201
  | Status400 _ => 400
  | Status401 _ => 401
  | Status403 _ _ _ => 403
  | Status404 _ => 404
  | Status500 _ => 500
  end.

Definition answered {A} (x : Response A * MemStorage) : Z * MemStorage :=
  (status (fst x), snd x).

Definition serve (fileExtOf : string -> string) (req : Request) (now : Z)
  (s : MemStorage) : Z * MemStorage :=
  match req with
  | ReqUpload auth body uniqueId =>
      answered (upload_handler fileExtOf auth body uniqueId now s)
  | ReqComment auth noteId content =>
      answered (comment_handler auth noteId content now s)
  | ReqLike auth noteId => answered (like_handler auth noteId now s)
  | ReqDownload auth noteId => answered (download_handler auth noteId now s)
  | ReqFollow auth followedId => answered (follow_handler auth followedId now s)
  | ReqCreateDiscussion auth title content category =>
      answered (create_discussion_handler auth title content category now s)
  | ReqViewDiscussion id => answered (discussion_handler id s)
  | ReqReply auth discussionId body =>
      answered (reply_handler auth discussionId body now s)
  end.

(** ** Further derived notions *)

(* Descending by [key]; elements with the same key ascending by [idf]. *)
Definition ordered_by {A} (key idf : A -> Z) (a b : A) : Prop :=
  key b < key a \/ (key a = key b /\ idf a < idf b).

(* Number of notes a user owns. *)
Definition uploads_of (s : MemStorage) (u : User.t) : Z :=
  count (fun note => Note.userId note =? User.id u) (JSMap.values (notes s)).

(* The pages [1 .. n] of [getAllNotes], one after the other. *)
Definition first_pages (n : nat) (limit : Z) (s : MemStorage) : list Note.t :=
  List.concat (map (fun p => getAllNotes (Z.of_nat p) limit s) (seq 1 n)).

(* What the claims' invariant leaves out: the keys of the other maps and
   the references of comments, replies and follows. *)
Record integrity (s : MemStorage) : Prop := mkIntegrity {
  comments_keyed : keyed Comment.id (comments s) (currentCommentId s);
  discussions_keyed : keyed Discussion.id (discussions s) (currentDiscussionId s);
  replies_keyed :
    keyed DiscussionReply.id (discussionReplies s) (currentDiscussionReplyId s);
  comments_refer : refer Comment.noteId (notes s) (comments s);
  replies_refer :
    Forall (fun r => JSMap.get (discussions s) (DiscussionReply.discussionId r) <> None)
           (JSMap.values (discussionReplies s));
  follows_refer :
    Forall (fun f => Follow.followerId f <> Follow.followedId f /\
                     JSMap.get (users s) (Follow.followedId f) <> None)
           (JSMap.values (follows s))
}.

(* The fields of a discussion other than the view counter. *)
Definition same_discussion (a b : Discussion.t) : Prop :=
  Discussion.with_views a 0 = Discussion.with_views b 0.

(* The operations that neither create a user nor award or charge coins. *)
Definition coin_free (op : Op) : Prop :=
  match op with
  | OpCreateUser _ | OpCreateNote _ | OpDownload _ _ => False
  | _ => True
  end.

(* The fields of a note that no operation writes. *)
Definition same_note (a b : Note.t) : Prop :=
  Note.with_likes (Note.with_downloads a 0) 0
  = Note.with_likes (Note.with_downloads b 0) 0.

(* The fields of a user other than the balance. *)
Definition same_user (a b : User.t) : Prop :=
  User.with_coins a NaN = User.with_coins b NaN.

(* What an operation may do to a stored note, and to a stored discussion. *)
Definition note_kept (a b : Note.t) : Prop :=
  same_note a b /\ Note.downloads a <= Note.downloads b.

Definition discussion_kept (a b : Discussion.t) : Prop :=
  same_discussion a b /\ Discussion.views a <= Discussion.views b.

(** ** Sample requests and traces, used to run the handlers *)

Definition alice : InsertUser.t := InsertUser.mk "alice" "alice@example.org" "pw-a".
Definition bob : InsertUser.t := InsertUser.mk "bob" "bob@example.org" "pw-b".

Definition sample_note (userId : Z) (isPremium : bool) (coinPrice : MaybeNumber)
  : InsertNote.t :=
  InsertNote.mk "Graphs" "Lecture notes" userId "academic" "/api/files/ab-g.pdf"
                "g.pdf" 1024 "pdf" isPremium coinPrice Null None.

(* Two users; alice uploads a free note; bob downloads and likes it and
   follows alice. *)
Definition sample_trace : list (Op * Z) :=
  [ (OpCreateUser alice, 100); (OpCreateUser bob, 101);
    (OpCreateNote (sample_note 1 false (Num 0)), 102);
    (OpDownload 2 1, 103); (OpLike 2 1, 104); (OpFollow 2 1, 105) ].

Definition sample_store : MemStorage := run sample_trace new_MemStorage.

(* Alice prices a premium note at -100 coins and bob downloads it. *)
Definition negative_price_trace : list (Op * Z) :=
  [ (OpCreateUser alice, 100); (OpCreateUser bob, 101);
    (OpCreateNote (sample_note 1 true (Num (-100))), 102);
    (OpDownload 2 1, 103) ].



(* Two notes uploaded within the same millisecond. *)
Definition same_time_trace : list (Op * Z) :=
  [ (OpCreateUser alice, 100);
    (OpCreateNote (sample_note 1 false (Num 0)), 200);
    (OpCreateNote (sample_note 1 false (Num 0)), 200) ].

Definition same_time_store : MemStorage := run same_time_trace new_MemStorage.

(* One discussion and no reply yet. *)
Definition discussion_store : MemStorage :=
  run [ (OpCreateUser alice, 100);
        (OpCreateDiscussion 1 "Exam" "Which chapters?" "academic", 101) ]
      new_MemStorage.

Definition dangling_reply : ReplyBody.t :=
  ReplyBody.mk "See above" (Some 99) None None.

Definition negative_price_upload : UploadBody.t :=
  UploadBody.mk (Some (FileData.mk (Some "g.pdf") (Some 1024)))
                "Graphs" "Lecture notes" "academic" true (Num (-5)) Null None.

(* A premium note priced 3 whose owner, user 9, was never registered;
   alice holds 5 coins from a free upload. *)
Definition orphan_store : MemStorage :=
  run [ (OpCreateUser alice, 100);
        (OpCreateNote (sample_note 1 false (Num 0)), 101);
        (OpCreateNote (sample_note 9 true (Num 3)), 102) ]
      new_MemStorage.

(* A note with two comments and a discussion with two replies, the second
   of each written in the same millisecond as the first; three notes in
   all. *)
Definition community_trace : list (Op * Z) :=
  [ (OpCreateUser alice, 100); (OpCreateUser bob, 101);
    (OpCreateNote (sample_note 1 false (Num 0)), 102);
    (OpCreateNote (sample_note 2 false (Num 0)), 103);
    (OpCreateNote (sample_note 1 true (Num 4)), 104);
    (OpComment 2 1 "Thanks", 110); (OpComment 1 1 "Welcome", 110);
    (OpCreateDiscussion 1 "Exam" "Which chapters?" "academic", 120);
    (OpReply 2 1 (ReplyBody.mk "All" None None None), 130);
    (OpReply 1 1 (ReplyBody.mk "Up to 7" (Some 1) None None), 130);
    (OpDownload 2 1, 140); (OpDownload 2 1, 141); (OpDownload 2 3, 142);
    (OpViewDiscussion 1, 150) ].

Definition community_store : MemStorage := run community_trace new_MemStorage.

Unset Implicit Arguments.

(** * Facts about the building blocks *)

Section CountFacts.
Context {A : Type} (p : A -> bool).

Lemma count_nil : count p [] = 0.
Proof. reflexivity. Qed.

Lemma count_cons x l : count p (x :: l) = (if p x then 1 else 0) + count p l.
Proof.
  unfold count; simpl. destruct (p x); simpl List.length; lia.
Qed.

Lemma count_app l1 l2 : count p (l1 ++ l2) = count p l1 + count p l2.
Proof.
  unfold count. rewrite filter_app, length_app. lia.
Qed.

Lemma count_nonneg l : 0 <= count p l.
Proof. unfold count; lia. Qed.

Lemma count_zero_iff l : count p l = 0 <-> Forall (fun x => p x = false) l.
Proof.
  induction l as [|x l IH].
  - split; [constructor | reflexivity].
  - rewrite count_cons. pose proof (count_nonneg l). split.
    + intros H0. destruct (p x) eqn:E; [lia|].
      constructor; [exact E | apply IH; lia].
    + intros HF. inversion HF; subst. rewrite H2.
      apply IH in H3. lia.
Qed.

Lemma find_none_count l : find p l = None -> count p l = 0.
Proof.
  intros H. apply count_zero_iff, Forall_forall.
  intros x Hx. exact (find_none p l H x Hx).
Qed.

Lemma existsb_count l : existsb p l = (0 <? count p l).
Proof.
  induction l as [|y l IH]; [reflexivity|].
  cbn [existsb]. rewrite count_cons, IH. pose proof (count_nonneg l).
  destruct (p y); cbn [orb].
  - symmetry; apply Z.ltb_lt; lia.
  - now rewrite Z.add_0_l.
Qed.

Lemma find_existsb l : isSome (find p l) = existsb p l.
Proof.
  induction l as [|y l IH]; [reflexivity|].
  simpl. destruct (p y); [reflexivity | exact IH].
Qed.
End CountFacts.

Section JSMapFacts.
Context {V : Type}.
Implicit Types (m : JSMap.t V) (k : Z) (v : V).

Lemma get_set_eq m k v : JSMap.get (JSMap.set m k v) k = Some v.
Proof.
  induction m as [|[k' v'] r IH]; simpl.
  - now rewrite Z.eqb_refl.
  - destruct (k' =? k) eqn:E; simpl.
    + now rewrite Z.eqb_refl.
    + now rewrite E.
Qed.

Lemma get_set_neq m k k' v :
  k <> k' -> JSMap.get (JSMap.set m k v) k' = JSMap.get m k'.
Proof.
  intros Hne. induction m as [|[k0 v0] r IH]; simpl.
  - destruct (k =? k') eqn:E; [apply Z.eqb_eq in E; contradiction | reflexivity].
  - destruct (k0 =? k) eqn:E; simpl.
    + apply Z.eqb_eq in E; subst k0.
      destruct (k =? k') eqn:E'; [apply Z.eqb_eq in E'; contradiction | reflexivity].
    + destruct (k0 =? k'); [reflexivity | exact IH].
Qed.

Lemma get_set_dom m k k' v :
  JSMap.get m k' <> None -> JSMap.get (JSMap.set m k v) k' <> None.
Proof.
  intros H. destruct (Z.eq_dec k k') as [->|Hne].
  - rewrite get_set_eq; discriminate.
  - now rewrite get_set_neq.
Qed.

Lemma get_none_keys m k : JSMap.get m k = None <-> ~ In k (JSMap.keys m).
Proof.
  induction m as [|[k' v'] r IH]; simpl.
  - tauto.
  - destruct (k' =? k) eqn:E.
    + apply Z.eqb_eq in E. split; [discriminate | intros H; exfalso; auto].
    + apply Z.eqb_neq in E. rewrite IH. tauto.
Qed.

Lemma get_some_in m k v : JSMap.get m k = Some v -> In (k, v) m.
Proof.
  induction m as [|[k' v'] r IH]; simpl; [discriminate|].
  destruct (k' =? k) eqn:E.
  - apply Z.eqb_eq in E; subst. intros [= ->]. now left.
  - intros H; right; auto.
Qed.

Lemma get_some_value m k v : JSMap.get m k = Some v -> In v (JSMap.values m).
Proof.
  intros H. apply get_some_in in H.
  change v with (snd (k, v)). now apply in_map.
Qed.

Lemma set_fresh m k v : JSMap.get m k = None -> JSMap.set m k v = m ++ [(k, v)].
Proof.
  induction m as [|[k' v'] r IH]; simpl; [reflexivity|].
  destruct (k' =? k); [discriminate|]. intros H. now rewrite IH.
Qed.

Lemma keys_set_present m k v :
  JSMap.get m k <> None -> JSMap.keys (JSMap.set m k v) = JSMap.keys m.
Proof.
  induction m as [|[k' v'] r IH]; simpl; [congruence|].
  destruct (k' =? k) eqn:E; simpl.
  - apply Z.eqb_eq in E; now subst.
  - intros H. now rewrite IH.
Qed.

End JSMapFacts.

Section KeyedFacts.
Context {V : Type} (idf : V -> Z).
Implicit Types (m : JSMap.t V) (k : Z) (v : V).

Lemma keyed_empty next : keyed idf JSMap.empty next.
Proof. split; constructor. Qed.

Lemma keyed_cons_inv k v m next :
  keyed idf ((k, v) :: m) next ->
  idf v = k /\ k < next /\ ~ In k (JSMap.keys m) /\ keyed idf m next.
Proof.
  intros [Hs Hf]. inversion Hs as [|? ? Hs' Hlt]; subst.
  inversion Hf as [|? ? [Hid Hk] Hf']; subst. simpl in *.
  repeat split; auto.
  intros Hin. rewrite Forall_forall in Hlt. specialize (Hlt _ Hin). lia.
Qed.

Lemma keyed_bound m next k :
  keyed idf m next -> In k (JSMap.keys m) -> k < next.
Proof.
  intros [_ Hf] Hin. apply in_map_iff in Hin as [[k' v] [<- Hin]].
  rewrite Forall_forall in Hf. now apply Hf in Hin.
Qed.

Lemma keyed_get_fresh m next k :
  keyed idf m next -> next <= k -> JSMap.get m k = None.
Proof.
  intros Hk Hle. apply get_none_keys. intros Hin.
  assert (k < next) by (eapply keyed_bound; eauto). lia.
Qed.

Lemma keyed_get_id m next k v :
  keyed idf m next -> JSMap.get m k = Some v -> idf v = k.
Proof.
  intros [_ Hf] Hg. apply get_some_in in Hg.
  rewrite Forall_forall in Hf. now apply Hf in Hg.
Qed.

Lemma keyed_in_get m next v :
  keyed idf m next -> In v (JSMap.values m) -> JSMap.get m (idf v) = Some v.
Proof.
  induction m as [|[k0 v0] r IH]; simpl; [tauto|].
  intros Hk Hin. apply keyed_cons_inv in Hk as (Hid & _ & Hnin & Hk).
  destruct Hin as [->|Hin].
  - now rewrite Hid, Z.eqb_refl.
  - specialize (IH Hk Hin).
    destruct (k0 =? idf v) eqn:E; [|exact IH].
    apply Z.eqb_eq in E. exfalso. apply Hnin. rewrite E.
    apply in_map_iff. exists (idf v, v).
    split; [reflexivity | now apply get_some_in].
Qed.

Lemma keyed_weaken m next next' :
  keyed idf m next -> next <= next' -> keyed idf m next'.
Proof.
  intros [Hs Hf] Hle. split; [exact Hs|].
  eapply Forall_impl; [|exact Hf]. simpl. intros kv [? ?]. split; [auto | lia].
Qed.

Lemma sorted_snoc (l : list Z) (a : Z) :
  StronglySorted Z.lt l -> Forall (fun x => x < a) l ->
  StronglySorted Z.lt (l ++ [a]).
Proof.
  induction 1 as [|x l Hs IH Hx]; intros Hf; simpl.
  - repeat constructor.
  - inversion Hf; subst. constructor; [auto|].
    apply Forall_app. split; [exact Hx | constructor; [assumption | constructor]].
Qed.

Lemma keyed_set_fresh m next v :
  keyed idf m next -> idf v = next ->
  keyed idf (JSMap.set m next v) (next + 1).
Proof.
  intros Hk Hid. rewrite set_fresh by (eapply keyed_get_fresh; eauto; lia).
  pose proof Hk as [Hs Hf]. split.
  - unfold JSMap.keys. rewrite map_app. simpl. apply sorted_snoc; [exact Hs|].
    apply Forall_forall. intros x Hx. eapply keyed_bound; eauto.
  - apply Forall_app. split.
    + eapply Forall_impl; [|exact Hf]. simpl. intros kv [? ?]. split; [auto | lia].
    + constructor; [simpl; split; [exact Hid | lia] | constructor].
Qed.

Lemma keyed_set_present m next k v v0 :
  keyed idf m next -> JSMap.get m k = Some v0 -> idf v = k ->
  keyed idf (JSMap.set m k v) next.
Proof.
  intros [Hs Hf] Hg Hid. split.
  - rewrite keys_set_present by congruence. exact Hs.
  - clear Hs. induction m as [|[k' v'] r IH]; simpl in *; [discriminate|].
    inversion Hf as [|? ? [Hid' Hlt] Hf']; subst. simpl in *.
    destruct (k' =? idf v) eqn:E.
    + apply Z.eqb_eq in E; subst. constructor; [simpl; split; [reflexivity | lia] | exact Hf'].
    + constructor; [simpl; auto | auto].
Qed.

Lemma sorted_delete m k :
  StronglySorted Z.lt (JSMap.keys m) ->
  StronglySorted Z.lt (JSMap.keys (JSMap.delete m k)).
Proof.
  induction m as [|[k' v'] r IH]; simpl; [auto|].
  intros Hs. inversion Hs as [|? ? Hs' Hlt]; subst.
  destruct (k' =? k); [exact Hs'|]. simpl. constructor; [auto|].
  rewrite Forall_forall in *. intros x Hx. apply Hlt.
  clear - Hx. induction r as [|[k0 v0] r IH]; simpl in *; [tauto|].
  destruct (k0 =? k); simpl in *; tauto.
Qed.

Lemma keyed_delete m next k :
  keyed idf m next -> keyed idf (JSMap.delete m k) next.
Proof.
  intros [Hs Hf]. split; [now apply sorted_delete|].
  clear Hs. induction m as [|[k' v'] r IH]; simpl; [constructor|].
  inversion Hf; subst. destruct (k' =? k); [assumption|].
  constructor; auto.
Qed.

Lemma values_set_fresh m next k v :
  keyed idf m next -> next <= k ->
  JSMap.values (JSMap.set m k v) = JSMap.values m ++ [v].
Proof.
  intros Hk Hle. rewrite set_fresh by (eapply keyed_get_fresh; eauto).
  unfold JSMap.values. now rewrite map_app.
Qed.

Lemma count_set_fresh (p : V -> bool) m next k v :
  keyed idf m next -> next <= k ->
  count p (JSMap.values (JSMap.set m k v)) =
  count p (JSMap.values m) + (if p v then 1 else 0).
Proof.
  intros Hk Hle. erewrite values_set_fresh by eauto.
  rewrite count_app, count_cons, count_nil. lia.
Qed.

Lemma count_delete (p : V -> bool) m next x :
  keyed idf m next -> In x (JSMap.values m) ->
  count p (JSMap.values (JSMap.delete m (idf x))) =
  count p (JSMap.values m) - (if p x then 1 else 0).
Proof.
  induction m as [|[k0 v0] r IH]; simpl; [tauto|].
  intros Hk Hin.
  assert (Hget : JSMap.get ((k0, v0) :: r) (idf x) = Some x)
    by (eapply keyed_in_get; eauto).
  apply keyed_cons_inv in Hk as (Hid & _ & Hnin & Hk).
  simpl in Hget. destruct (k0 =? idf x) eqn:E.
  - injection Hget as ->. rewrite count_cons. lia.
  - simpl. rewrite !count_cons. destruct Hin as [->|Hin].
    + rewrite Hid, Z.eqb_refl in E. discriminate.
    + rewrite (IH Hk Hin). lia.
Qed.

Lemma Forall_values_delete (P : V -> Prop) m k :
  Forall P (JSMap.values m) -> Forall P (JSMap.values (JSMap.delete m k)).
Proof.
  induction m as [|[k' v'] r IH]; simpl; [auto|].
  intros HF. inversion HF; subst. destruct (k' =? k); [assumption|].
  simpl. constructor; auto.
Qed.

Lemma Forall_values_set (P : V -> Prop) m k v :
  Forall P (JSMap.values m) -> P v -> Forall P (JSMap.values (JSMap.set m k v)).
Proof.
  induction m as [|[k' v'] r IH]; simpl; intros HF Hv.
  - constructor; auto.
  - inversion HF; subst. destruct (k' =? k); simpl; constructor; auto.
Qed.

Lemma in_values_set m k v : In v (JSMap.values (JSMap.set m k v)).
Proof.
  eapply get_some_value. apply get_set_eq.
Qed.
End KeyedFacts.

Arguments JSMap.values {V} m : simpl never.
Arguments JSMap.keys {V} m : simpl never.

Section EventFacts.
Context {V : Type} (idf : V -> Z) (noteIdOf : V -> Z) (field : Note.t -> Z).
Implicit Types (ns : JSMap.t Note.t) (m : JSMap.t V).

Lemma refer_set_notes ns m k n :
  refer noteIdOf ns m -> refer noteIdOf (JSMap.set ns k n) m.
Proof.
  unfold refer. intros H. eapply Forall_impl; [|exact H].
  intros e He. now apply get_set_dom.
Qed.

Lemma refer_set_fresh ns m next e :
  refer noteIdOf ns m -> keyed idf m next ->
  JSMap.get ns (noteIdOf e) <> None ->
  refer noteIdOf ns (JSMap.set m next e).
Proof.
  unfold refer. intros H Hk He.
  erewrite values_set_fresh by (eauto; lia).
  apply Forall_app. split; [exact H | constructor; [exact He | constructor]].
Qed.

Lemma refer_delete ns m k :
  refer noteIdOf ns m -> refer noteIdOf ns (JSMap.delete m k).
Proof. apply Forall_values_delete. Qed.

Lemma refer_count_zero ns m k :
  refer noteIdOf ns m -> JSMap.get ns k = None ->
  count (fun e => noteIdOf e =? k) (JSMap.values m) = 0.
Proof.
  unfold refer. intros H Hn. apply count_zero_iff.
  eapply Forall_impl; [|exact H]. simpl. intros e He.
  apply Z.eqb_neq. intros E. rewrite E in He. contradiction.
Qed.

Lemma counted_set_same ns m k n0 n' :
  counted noteIdOf field ns m -> JSMap.get ns k = Some n0 ->
  field n' = field n0 ->
  counted noteIdOf field (JSMap.set ns k n') m.
Proof.
  intros H Hg Hf k' n Hn. destruct (Z.eq_dec k k') as [->|Hne].
  - rewrite get_set_eq in Hn. injection Hn as <-. rewrite Hf. now apply H.
  - rewrite get_set_neq in Hn by assumption. now apply H.
Qed.

Lemma counted_new_note ns m k n' :
  counted noteIdOf field ns m -> refer noteIdOf ns m ->
  JSMap.get ns k = None -> field n' = 0 ->
  counted noteIdOf field (JSMap.set ns k n') m.
Proof.
  intros H Hr Hg Hf k' n Hn. destruct (Z.eq_dec k k') as [->|Hne].
  - rewrite get_set_eq in Hn. injection Hn as <-. rewrite Hf.
    symmetry. now apply refer_count_zero with (ns := ns).
  - rewrite get_set_neq in Hn by assumption. now apply H.
Qed.

Lemma counted_set_incr ns m next k n0 n' e :
  counted noteIdOf field ns m -> JSMap.get ns k = Some n0 ->
  keyed idf m next -> noteIdOf e = k -> field n' = field n0 + 1 ->
  counted noteIdOf field (JSMap.set ns k n') (JSMap.set m next e).
Proof.
  intros H Hg Hk He Hf k' n Hn.
  erewrite count_set_fresh by (eauto; lia). cbv beta.
  destruct (Z.eq_dec k k') as [->|Hne].
  - rewrite get_set_eq in Hn. injection Hn as <-.
    rewrite Hf, He, Z.eqb_refl. rewrite (H _ _ Hg). reflexivity.
  - rewrite get_set_neq in Hn by assumption.
    rewrite He. apply Z.eqb_neq in Hne. rewrite Hne.
    rewrite (H _ _ Hn). lia.
Qed.

Lemma counted_set_decr ns m next k n0 n' x :
  counted noteIdOf field ns m -> JSMap.get ns k = Some n0 ->
  keyed idf m next -> In x (JSMap.values m) -> noteIdOf x = k ->
  field n' = field n0 - 1 ->
  counted noteIdOf field (JSMap.set ns k n') (JSMap.delete m (idf x)).
Proof.
  intros H Hg Hk Hin He Hf k' n Hn.
  erewrite count_delete by eauto. cbv beta.
  destruct (Z.eq_dec k k') as [->|Hne].
  - rewrite get_set_eq in Hn. injection Hn as <-.
    rewrite Hf, He, Z.eqb_refl. rewrite (H _ _ Hg). reflexivity.
  - rewrite get_set_neq in Hn by assumption.
    rewrite He. apply Z.eqb_neq in Hne. rewrite Hne.
    rewrite (H _ _ Hn). lia.
Qed.

Lemma counted_in_pos ns m k n x :
  counted noteIdOf field ns m -> JSMap.get ns k = Some n ->
  In x (JSMap.values m) -> noteIdOf x = k -> 1 <= field n.
Proof.
  intros H Hg Hin He. rewrite (H _ _ Hg).
  apply in_split in Hin as (l1 & l2 & ->).
  rewrite count_app, count_cons, He, Z.eqb_refl.
  pose proof (count_nonneg (fun e => noteIdOf e =? k) l1).
  pose proof (count_nonneg (fun e => noteIdOf e =? k) l2). lia.
Qed.

Lemma counted_nonneg ns m k n :
  counted noteIdOf field ns m -> JSMap.get ns k = Some n -> 0 <= field n.
Proof.
  intros H Hg. rewrite (H _ _ Hg). apply count_nonneg.
Qed.
End EventFacts.

(** * The store stays consistent *)

Ltac unfold_storage :=
  unfold comment_handler, like_handler, download_handler, follow_handler,
    discussion_handler, create_discussion_handler, reply_handler,
    user_handler, followers_handler, following_handler, replies_handler,
    recent_handler, authenticated, try_catch,
    createUser, updateUserCoins, getUser, getNoteById, createNote,
    updateNoteDownloads, updateNoteLikes, createComment, recordDownload,
    getLikeByUserAndNote, createOrToggleLike, createDiscussion,
    getDiscussionById, updateDiscussionViews, createDiscussionReply,
    createFollow, getFollowByIds, removeFollow, bind, read, write, ret, throw.

Create HintDb store discriminated.

#[local] Hint Resolve keyed_empty keyed_weaken keyed_delete
  refer_set_notes refer_delete get_set_dom : store.

Lemma consistent_new : consistent new_MemStorage.
Proof.
  constructor; cbn; try apply keyed_empty; try constructor;
    try (intros; discriminate); intros; rewrite count_nil; lia.
Qed.

Lemma keyed_set_coins us next k u c :
  keyed User.id us next -> JSMap.get us k = Some u ->
  keyed User.id (JSMap.set us k (User.with_coins u c)) next.
Proof.
  intros Hk Hg. eapply keyed_set_present; eauto.
  cbn. eapply keyed_get_id; eauto.
Qed.

Lemma consistent_createUser s i now :
  consistent s -> consistent (snd (createUser i now s)).
Proof.
  intros []. unfold_storage. constructor; cbn; auto.
  apply keyed_set_fresh; auto.
Qed.

Lemma consistent_updateUserCoins s k c :
  consistent s -> consistent (snd (updateUserCoins k c s)).
Proof.
  intros H. unfold_storage. cbn.
  destruct (JSMap.get (users s) k) as [u|] eqn:Hu; cbn; [|exact H].
  destruct H. constructor; cbn; auto. now apply keyed_set_coins.
Qed.

Lemma consistent_createNote s i now :
  consistent s -> consistent (snd (createNote i now s)).
Proof.
  intros H. unfold_storage. cbn.
  assert (Hfresh : JSMap.get (notes s) (currentNoteId s) = None).
  { destruct H. eapply keyed_get_fresh; eauto. lia. }
  assert (Hmid : consistent
            (set_notes (JSMap.set (notes s) (currentNoteId s)
                          (Note.of_insert i (currentNoteId s) now))
                       (set_currentNoteId (currentNoteId s + 1) s))).
  { destruct H. constructor; cbn; auto with store.
    - apply keyed_set_fresh; auto.
    - apply counted_new_note; auto.
    - apply counted_new_note; auto. }
  destruct (JSMap.get (users s) (InsertNote.userId i)) as [u|] eqn:Hu; cbn.
  - destruct Hmid. constructor; cbn in *; auto. now apply keyed_set_coins.
  - exact Hmid.
Qed.

Lemma consistent_recordDownload s i now n :
  consistent s -> JSMap.get (notes s) (InsertDownload.noteId i) = Some n ->
  consistent (snd (recordDownload i now s)).
Proof.
  intros H Hn. unfold_storage. cbn. rewrite Hn. cbn.
  assert (Hid : Note.id n = InsertDownload.noteId i)
    by (destruct H; eapply keyed_get_id; eauto).
  destruct H. constructor; cbn; auto with store.
  - eapply keyed_set_present; eauto.
  - apply keyed_set_fresh; auto.
  - apply refer_set_notes. eapply refer_set_fresh; eauto. cbn. congruence.
  - eapply counted_set_incr; eauto.
  - eapply counted_set_same; eauto.
Qed.

(* What one call of the toggle does to a consistent store whose note exists. *)
Lemma createOrToggleLike_present s noteId userId now n :
  consistent s -> JSMap.get (notes s) noteId = Some n ->
  let r := createOrToggleLike (InsertLike.mk noteId userId) now s in
  consistent (snd r) /\
  (if liked s userId noteId
   then fst r = Returned None /\
        liked (snd r) userId noteId = false /\
        JSMap.get (notes (snd r)) noteId =
          Some (Note.with_likes n (Note.likes n - 1)) /\
        1 <= Note.likes n
   else (exists like, fst r = Returned (Some like)) /\
        liked (snd r) userId noteId = true /\
        JSMap.get (notes (snd r)) noteId =
          Some (Note.with_likes n (Note.likes n + 1)) /\
        0 <= Note.likes n).
Proof.
  intros H Hn. unfold liked. rewrite <- find_existsb.
  unfold createOrToggleLike, getLikeByUserAndNote, updateNoteLikes, getNoteById,
    bind, read, write, ret, throw. cbn.
  fold (is_like_of userId noteId).
  assert (Hid : Note.id n = noteId) by (destruct H; eapply keyed_get_id; eauto).
  destruct (find (is_like_of userId noteId) (JSMap.values (likes s)))
    as [l|] eqn:Hfind; cbn; rewrite Hn; cbn.
  - apply find_some in Hfind as [Hin Hl].
    assert (Hnl : Like.noteId l = noteId).
    { unfold is_like_of in Hl. apply andb_true_iff in Hl as [_ Hl].
      now apply Z.eqb_eq in Hl. }
    assert (Hpos : 1 <= Note.likes n).
    { destruct H. eapply counted_in_pos with (noteIdOf := Like.noteId); eauto. }
    assert (Hcnt : forall p, count p (JSMap.values (JSMap.delete (likes s) (Like.id l)))
                             = count p (JSMap.values (likes s)) - (if p l then 1 else 0)).
    { intros p. destruct H. eapply count_delete; eauto. }
    refine (conj _ (conj _ (conj _ (conj _ _)))).
    + destruct H. constructor; cbn; auto with store.
      * eapply keyed_set_present; eauto.
      * eapply counted_set_same; eauto.
      * eapply counted_set_decr; eauto. cbn. lia.
      * intros u k. rewrite Hcnt. specialize (likes_unique0 u k).
        destruct (is_like_of u k l); lia.
    + reflexivity.
    + rewrite existsb_count, Hcnt, Hl. apply Z.ltb_ge.
      destruct H. specialize (likes_unique0 userId noteId). lia.
    + rewrite get_set_eq. do 2 f_equal. lia.
    + exact Hpos.
  - assert (Hz : 0 <= Note.likes n).
    { destruct H. eapply counted_nonneg with (field := Note.likes); eauto. }
    assert (Hcnt : forall p like,
               count p (JSMap.values (JSMap.set (likes s) (currentLikeId s) like))
               = count p (JSMap.values (likes s)) + (if p like then 1 else 0)).
    { intros p like. destruct H. eapply count_set_fresh; eauto. lia. }
    apply find_none_count in Hfind.
    refine (conj _ (conj _ (conj _ (conj _ _)))).
    + destruct H. constructor; cbn; auto with store.
      * eapply keyed_set_present; eauto.
      * apply keyed_set_fresh; auto.
      * apply refer_set_notes. eapply refer_set_fresh; eauto. cbn. congruence.
      * eapply counted_set_same; eauto.
      * eapply counted_set_incr; eauto. cbn. lia.
      * intros u k. rewrite Hcnt. cbn.
        specialize (likes_unique0 u k).
        destruct (Z.eq_dec u userId) as [->|Hu], (Z.eq_dec k noteId) as [->|Hk].
        -- rewrite Hfind. unfold is_like_of; cbn. rewrite !Z.eqb_refl. cbn. lia.
        -- unfold is_like_of at 2; cbn.
           apply Z.eqb_neq in Hk. rewrite Z.eqb_sym in Hk. rewrite Hk, andb_false_r. lia.
        -- unfold is_like_of at 2; cbn.
           apply Z.eqb_neq in Hu. rewrite Z.eqb_sym in Hu. rewrite Hu. cbn. lia.
        -- unfold is_like_of at 2; cbn.
           apply Z.eqb_neq in Hu. rewrite Z.eqb_sym in Hu. rewrite Hu. cbn. lia.
    + eexists; reflexivity.
    + rewrite existsb_count, Hcnt, Hfind. unfold is_like_of; cbn.
      rewrite !Z.eqb_refl. reflexivity.
    + rewrite get_set_eq. do 2 f_equal. lia.
    + exact Hz.
Qed.

Lemma is_follow_of_other a b a' b' now id :
  (a', b') <> (a, b) ->
  is_follow_of a' b' (Follow.mk id a b now) = false.
Proof.
  intros Hne. unfold is_follow_of; cbn.
  destruct (a =? a') eqn:Ea; [|reflexivity].
  destruct (b =? b') eqn:Eb; [|reflexivity].
  apply Z.eqb_eq in Ea, Eb. subst. contradiction.
Qed.

Lemma is_follow_of_inv a b f :
  is_follow_of a b f = true -> Follow.followerId f = a /\ Follow.followedId f = b.
Proof.
  unfold is_follow_of. intros H. apply andb_true_iff in H as [Ha Hb].
  now apply Z.eqb_eq in Ha, Hb.
Qed.

(* What the follow request does once the two users differ and the followed
   one exists. *)
Lemma follow_handler_toggle s a b now ub :
  consistent s -> a <> b -> JSMap.get (users s) b = Some ub ->
  let r := follow_handler (Some a) b now s in
  consistent (snd r) /\
  (if 0 <? follow_count s a b
   then fst r = Status200 false /\ follow_count (snd r) a b = 0
   else fst r = Status200 true /\ follow_count (snd r) a b = 1) /\
  (forall a' b', (a', b') <> (a, b) ->
                 follow_count (snd r) a' b' = follow_count s a' b').
Proof.
  intros H Hne Hub. unfold follow_count. rewrite <- existsb_count, <- find_existsb.
  unfold_storage. cbn.
  apply Z.eqb_neq in Hne. rewrite Hne, Hub. cbn.
  fold (is_follow_of a b).
  destruct (find (is_follow_of a b) (JSMap.values (follows s))) as [f|] eqn:Hfind;
    cbn; fold (is_follow_of a b); rewrite ?Hfind; cbn.
  - apply find_some in Hfind as [Hin Hf].
    assert (Hcnt : forall p, count p (JSMap.values (JSMap.delete (follows s) (Follow.id f)))
                             = count p (JSMap.values (follows s)) - (if p f then 1 else 0)).
    { intros p. destruct H. eapply count_delete; eauto. }
    refine (conj _ (conj (conj eq_refl _) _)).
    + destruct H. constructor; cbn; auto with store.
      intros u k. rewrite Hcnt. specialize (follows_unique0 u k).
      destruct (is_follow_of u k f); lia.
    + rewrite Hcnt, Hf. destruct H. specialize (follows_unique0 a b).
      pose proof (count_nonneg (is_follow_of a b)
                    (JSMap.values (JSMap.delete (follows s) (Follow.id f)))).
      rewrite Hcnt, Hf in H. lia.
    + intros a' b' Hab. rewrite Hcnt.
      destruct (is_follow_of a' b' f) eqn:E; [|lia].
      apply is_follow_of_inv in E as [<- <-].
      apply is_follow_of_inv in Hf as [<- <-]. contradiction.
  - assert (Hcnt : forall p f,
               count p (JSMap.values (JSMap.set (follows s) (currentFollowId s) f))
               = count p (JSMap.values (follows s)) + (if p f then 1 else 0)).
    { intros p f. destruct H. eapply count_set_fresh; eauto. lia. }
    apply find_none_count in Hfind.
    refine (conj _ (conj (conj eq_refl _) _)).
    + destruct H. constructor; cbn; auto with store.
      * apply keyed_set_fresh; auto.
      * intros u k. rewrite Hcnt. specialize (follows_unique0 u k).
        destruct (is_follow_of u k _) eqn:E; [|lia].
        apply is_follow_of_inv in E as [<- <-]. cbn. rewrite Hfind. lia.
    + rewrite Hcnt, Hfind. unfold is_follow_of; cbn. now rewrite !Z.eqb_refl.
    + intros a' b' Hab. rewrite Hcnt, is_follow_of_other by assumption. lia.
Qed.

Lemma consistent_follow_handler s auth b now :
  consistent s -> consistent (snd (follow_handler auth b now s)).
Proof.
  intros H. destruct auth as [a|]; [|exact H].
  destruct (Z.eq_dec a b) as [->|Hne].
  - unfold_storage. cbn. now rewrite Z.eqb_refl.
  - destruct (JSMap.get (users s) b) as [ub|] eqn:Hub.
    + now apply (follow_handler_toggle s a b now ub H Hne Hub).
    + unfold_storage. cbn. apply Z.eqb_neq in Hne. now rewrite Hne, Hub.
Qed.

Lemma consistent_like_handler s auth noteId now :
  consistent s -> consistent (snd (like_handler auth noteId now s)).
Proof.
  intros H. destruct auth as [u|]; [|exact H].
  unfold like_handler, authenticated, try_catch, getNoteById, bind at 1, read.
  destruct (JSMap.get (notes s) noteId) as [n|] eqn:Hn; [|exact H].
  pose proof (createOrToggleLike_present s noteId u now n H Hn) as [Hc _].
  unfold bind, ret.
  destruct (createOrToggleLike (InsertLike.mk noteId u) now s) as [[r|e] s'];
    exact Hc.
Qed.

Lemma consistent_download_handler s auth noteId now :
  consistent s -> consistent (snd (download_handler auth noteId now s)).
Proof.
  intros H. destruct auth as [u|]; [|exact H].
  unfold download_handler, authenticated, try_catch, getNoteById, bind at 1, read.
  destruct (JSMap.get (notes s) noteId) as [n|] eqn:Hn; [|exact H].
  assert (Hfinish : forall s1, consistent s1 -> notes s1 = notes s ->
            consistent (snd (recordDownload (InsertDownload.mk noteId u) now s1))).
  { intros s1 H1 Hs1. eapply consistent_recordDownload; eauto.
    cbn. rewrite Hs1. exact Hn. }
  assert (Hcoins : forall k c s1, notes (snd (updateUserCoins k c s1)) = notes s1).
  { intros k c s1. unfold_storage. cbn.
    destruct (JSMap.get (users s1) k); reflexivity. }
  assert (Hdone : forall (m : M Download.t) (r : Response DownloadOk.t) s1,
             consistent (snd (m s1)) ->
             consistent (snd (let (o, s') := bind m (fun _ => ret r) s1 in
                              match o with
                              | Returned r => (r, s')
                              | Thrown _ => (Status500 "Failed to process download", s')
                              end))).
  { intros m r s1 Hm. unfold bind, ret. destruct (m s1) as [[d|e] s']; exact Hm. }
  destruct (Note.isPremium n).
  - unfold getUser, bind at 1, read.
    destruct (JSMap.get (users s) u) as [usr|] eqn:Hu; [|exact H].
    destruct (num_lt (User.coins usr) (ToNumber (Note.coinPrice n))); [exact H|].
    pose proof (consistent_updateUserCoins s u (num_neg (ToNumber (Note.coinPrice n))) H) as H1.
    pose proof (Hcoins u (num_neg (ToNumber (Note.coinPrice n))) s) as N1.
    unfold bind at 1.
    destruct (updateUserCoins u (num_neg (ToNumber (Note.coinPrice n))) s)
      as [[u1|e1] s1]; cbn in H1, N1; [|exact H1].
    unfold bind at 1.
    destruct (negb (u =? Note.userId n)).
    + pose proof (consistent_updateUserCoins s1 (Note.userId n)
                    (ToNumber (Note.coinPrice n)) H1) as H2.
      pose proof (Hcoins (Note.userId n) (ToNumber (Note.coinPrice n)) s1) as N2.
      unfold bind at 1.
      destruct (updateUserCoins (Note.userId n) (ToNumber (Note.coinPrice n)) s1)
        as [[u2|e2] s2]; cbn in H2, N2; [|exact H2].
      unfold ret at 1. apply Hdone, Hfinish; [exact H2 | congruence].
    + unfold ret at 1. apply Hdone, Hfinish; [exact H1 | congruence].
  - apply Hdone, Hfinish; [exact H | reflexivity].
Qed.

(* Operations on comments, discussions and replies touch none of the maps
   the invariant reads. *)
Lemma consistent_frame s s' :
  consistent s ->
  users s' = users s -> notes s' = notes s -> downloads s' = downloads s ->
  likes s' = likes s -> follows s' = follows s ->
  currentUserId s' = currentUserId s -> currentNoteId s' = currentNoteId s ->
  currentDownloadId s' = currentDownloadId s ->
  currentLikeId s' = currentLikeId s -> currentFollowId s' = currentFollowId s ->
  consistent s'.
Proof.
  intros [] E1 E2 E3 E4 E5 E6 E7 E8 E9 E10.
  constructor; rewrite ?E1, ?E2, ?E3, ?E4, ?E5, ?E6, ?E7, ?E8, ?E9, ?E10; assumption.
Qed.

Lemma consistent_exec s op now :
  consistent s -> consistent (exec op now s).
Proof.
  intros H. destruct op; cbn [exec].
  - now apply consistent_createUser.
  - now apply consistent_createNote.
  - unfold_storage. cbn. destruct (JSMap.get (notes s) noteId); cbn; [|exact H].
    eapply consistent_frame; [exact H | reflexivity ..].
  - now apply consistent_like_handler.
  - now apply consistent_download_handler.
  - now apply consistent_follow_handler.
  - unfold_storage. cbn. eapply consistent_frame; [exact H | reflexivity ..].
  - unfold_storage. cbn.
    destruct (JSMap.get (discussions s) id) eqn:E; cbn; rewrite ?E; cbn; [|exact H].
    eapply consistent_frame; [exact H | reflexivity ..].
  - unfold_storage. cbn.
    destruct (JSMap.get (discussions s) discussionId); cbn; [|exact H].
    eapply consistent_frame; [exact H | reflexivity ..].
Qed.

Lemma reachable_by_consistent allowed s :
  reachable_by allowed s -> consistent s.
Proof.
  induction 1 as [|s op now _ IH _].
  - exact consistent_new.
  - now apply consistent_exec.
Qed.

Lemma reachable_by_run allowed trace :
  forall s, reachable_by allowed s -> Forall (fun x => allowed (fst x)) trace ->
            reachable_by allowed (run trace s).
Proof.
  induction trace as [|[op now] rest IH]; intros s Hs Hall; cbn.
  - exact Hs.
  - inversion Hall; subst. apply IH; [|assumption]. now constructor.
Qed.

Lemma reachable_run trace : reachable (run trace new_MemStorage).
Proof.
  apply reachable_by_run; [constructor|].
  apply Forall_forall. intros; exact I.
Qed.

(** ** C1: counters agree with the event records *)

(** C1. In every store reachable by the operations (as the handlers issue
    them: a download or a like reaches the store once the handler has found
    the note), each stored note's [downloads] is the number of Download
    records naming it and its [likes] the number of Like records naming
    it. *)
Theorem C1_counters_consistent s n :
  reachable s -> In n (JSMap.values (notes s)) ->
  Note.downloads n = download_count s (Note.id n) /\
  Note.likes n = like_count s (Note.id n).
Proof.
  intros Hr Hin. apply reachable_by_consistent in Hr. destruct Hr.
  pose proof (keyed_in_get Note.id _ _ _ notes_keyed0 Hin) as Hg.
  split; [now apply downloads_counted0 | now apply likes_counted0].
Qed.

Lemma C1_counters_consistent_witness :
  let n := Note.with_likes
             (Note.with_downloads (Note.of_insert (sample_note 1 false (Num 0)) 1 102) 1) 1 in
  Note.downloads n = download_count sample_store (Note.id n) /\
  Note.likes n = like_count sample_store (Note.id n).
Proof.
  apply C1_counters_consistent.
  - apply reachable_run.
  - vm_compute. left. reflexivity.
Defined.

(** ** C4: toggling a like twice *)

(** C4. In a reachable store, for a note that exists, two like-toggles in a
    row by the same user bring back both the presence or absence of the
    user's Like record and the note's [likes] counter. *)
Theorem C4_toggle_like_twice s noteId userId now1 now2 n :
  reachable s -> JSMap.get (notes s) noteId = Some n ->
  let s1 := snd (createOrToggleLike (InsertLike.mk noteId userId) now1 s) in
  let s2 := snd (createOrToggleLike (InsertLike.mk noteId userId) now2 s1) in
  liked s2 userId noteId = liked s userId noteId /\
  option_map Note.likes (JSMap.get (notes s2) noteId) = Some (Note.likes n).
Proof.
  intros Hr Hn s1 s2. apply reachable_by_consistent in Hr.
  pose proof (createOrToggleLike_present s noteId userId now1 n Hr Hn) as [Hc1 H1].
  fold s1 in Hc1, H1.
  destruct (liked s userId noteId) eqn:L0.
  - destruct H1 as (_ & L1 & N1 & Hpos).
    pose proof (createOrToggleLike_present s1 noteId userId now2 _ Hc1 N1) as [_ H2].
    fold s2 in H2. rewrite L1 in H2. destruct H2 as (_ & L2 & N2 & _).
    split; [exact L2|]. rewrite N2. cbn. f_equal. lia.
  - destruct H1 as (_ & L1 & N1 & Hz).
    pose proof (createOrToggleLike_present s1 noteId userId now2 _ Hc1 N1) as [_ H2].
    fold s2 in H2. rewrite L1 in H2. destruct H2 as (_ & L2 & N2 & _).
    split; [exact L2|]. rewrite N2. cbn. f_equal. lia.
Qed.

Lemma C4_toggle_like_twice_witness :
  let s1 := snd (createOrToggleLike (InsertLike.mk 1 2) 200 sample_store) in
  let s2 := snd (createOrToggleLike (InsertLike.mk 1 2) 201 s1) in
  liked s2 2 1 = liked sample_store 2 1 /\
  option_map Note.likes (JSMap.get (notes s2) 1) = Some 1.
Proof.
  apply (C4_toggle_like_twice sample_store 1 2 200 201
           (Note.with_likes
              (Note.with_downloads (Note.of_insert (sample_note 1 false (Num 0)) 1 102) 1) 1)).
  - apply reachable_run.
  - reflexivity.
Defined.

(** ** C2: the charge for a premium download *)



(** ** C6: the follow toggle *)

Lemma follow_self_rejected s a now :
  follow_handler (Some a) a now s = (Status400 "Cannot follow yourself", s).
Proof.
  unfold_storage. cbn. now rewrite Z.eqb_refl.
Qed.

(** C6. A request to follow oneself is rejected and changes nothing.  In a
    reachable store there is at most one Follow record per ordered pair;
    when the two users differ and the followed one exists, the request
    removes the pair's record and answers [following: false] if there is
    one, and otherwise creates exactly one and answers [following: true];
    the records of other pairs are not touched. *)
Theorem C6_follow_toggle s followerId followedId now :
  follow_handler (Some followerId) followerId now s
    = (Status400 "Cannot follow yourself", s) /\
  (reachable s ->
   follow_count s followerId followedId <= 1 /\
   (followerId <> followedId ->
    JSMap.get (users s) followedId <> None ->
    let r := follow_handler (Some followerId) followedId now s in
    (if 0 <? follow_count s followerId followedId
     then fst r = Status200 false /\ follow_count (snd r) followerId followedId = 0
     else fst r = Status200 true /\ follow_count (snd r) followerId followedId = 1) /\
    (forall a b, (a, b) <> (followerId, followedId) ->
                 follow_count (snd r) a b = follow_count s a b))).
Proof.
  split; [apply follow_self_rejected|].
  intros Hr. apply reachable_by_consistent in Hr. split.
  - destruct Hr. apply follows_unique0.
  - intros Hne Hex.
    destruct (JSMap.get (users s) followedId) as [ub|] eqn:Hub; [|contradiction].
    pose proof (follow_handler_toggle s followerId followedId now ub Hr Hne Hub)
      as (_ & H1 & H2).
    split; assumption.
Qed.

Lemma C6_follow_toggle_witness :
  follow_count sample_store 2 1 <= 1 /\
  fst (follow_handler (Some 2) 1 300 sample_store) = Status200 false /\
  follow_count (snd (follow_handler (Some 2) 1 300 sample_store)) 2 1 = 0.
Proof.
  destruct (C6_follow_toggle sample_store 2 1 300) as [_ H].
  destruct (H (reachable_run sample_trace)) as [Hu Ht].
  assert (Hne : (2 : Z) <> 1) by lia.
  assert (Hex : JSMap.get (users sample_store) 1 <> None) by (vm_compute; discriminate).
  destruct (Ht Hne Hex) as [Hif _].
  change (0 <? follow_count sample_store 2 1) with true in Hif. cbv iota in Hif.
  exact (conj Hu Hif).
Defined.

(** ** C10: a note created for a user that does not exist *)

(** C10. When [createNote] is called with a [userId] that no stored user
    has, it throws from the coin award, yet the note is already stored
    under a fresh id and stays there: its owner does not exist. *)
Theorem C10_createNote_not_atomic s insertNote now :
  reachable s ->
  JSMap.get (users s) (InsertNote.userId insertNote) = None ->
  let r := createNote insertNote now s in
  let note := Note.of_insert insertNote (currentNoteId s) now in
  fst r = Thrown (UserNotFound (InsertNote.userId insertNote)) /\
  JSMap.get (notes s) (currentNoteId s) = None /\
  JSMap.get (notes (snd r)) (currentNoteId s) = Some note /\
  JSMap.get (users (snd r)) (Note.userId note) = None /\
  users (snd r) = users s /\
  currentNoteId (snd r) = currentNoteId s + 1.
Proof.
  intros Hr Hu r note. subst r note.
  apply reachable_by_consistent in Hr.
  unfold_storage. cbn. rewrite Hu. cbn.
  split; [reflexivity|]. split.
  - destruct Hr. eapply keyed_get_fresh; eauto. lia.
  - split; [apply get_set_eq|]. split; [exact Hu|]. split; reflexivity.
Qed.

(* The same pattern in the storage methods the like and download handlers
   guard: called for a note that does not exist, [recordDownload] throws
   after the record is stored. *)
Lemma recordDownload_missing_note s insertDownload now :
  JSMap.get (notes s) (InsertDownload.noteId insertDownload) = None ->
  let r := recordDownload insertDownload now s in
  fst r = Thrown (NoteNotFound (InsertDownload.noteId insertDownload)) /\
  In (Download.mk (currentDownloadId s) (InsertDownload.noteId insertDownload)
                  (InsertDownload.userId insertDownload) now)
     (JSMap.values (downloads (snd r))).
Proof.
  intros Hn r. subst r. unfold_storage. cbn. rewrite Hn. cbn.
  split; [reflexivity | apply in_values_set].
Qed.

Lemma C10_createNote_not_atomic_witness :
  let r := createNote (sample_note 7 false (Num 0)) 300 sample_store in
  fst r = Thrown (UserNotFound 7) /\
  JSMap.get (notes (snd r)) 2
    = Some (Note.of_insert (sample_note 7 false (Num 0)) 2 300) /\
  JSMap.get (users (snd r)) 7 = None.
Proof.
  destruct (C10_createNote_not_atomic sample_store (sample_note 7 false (Num 0)) 300
              (reachable_run sample_trace) eq_refl) as (H1 & _ & H3 & H4 & _).
  exact (conj H1 (conj H3 H4)).
Defined.

(** ** C9: the follower lists carry the stored credential *)

Lemma change_password_stored s u pw next :
  keyed User.id (users s) next -> In u (JSMap.values (users s)) ->
  change_password (User.id u) pw s
  = set_users (JSMap.set (users s) (User.id u) (with_password u pw)) s.
Proof.
  intros Hk Hin. unfold change_password.
  now rewrite (keyed_in_get User.id _ _ _ Hk Hin).
Qed.

Lemma user_handler_change_password s k pw :
  fst (user_handler k (change_password k pw s)) = fst (user_handler k s).
Proof.
  unfold change_password, user_handler, try_catch, getUser, bind, read, ret.
  destruct (JSMap.get (users s) k) as [u|] eqn:Hu; cbn.
  - rewrite get_set_eq. reflexivity.
  - rewrite ?Hu. reflexivity.
Qed.

Lemma includes_In l x : includes l x = true <-> In x l.
Proof.
  unfold includes. rewrite existsb_exists. split.
  - intros (y & Hy & E). apply Z.eqb_eq in E. now subst.
  - intros H. exists x. split; [exact H | apply Z.eqb_refl].
Qed.

Lemma following_iff s a ub :
  In ub (getFollowingByUserId a s) <->
  In ub (JSMap.values (users s)) /\
  exists f, In f (JSMap.values (follows s)) /\
            Follow.followerId f = a /\ Follow.followedId f = User.id ub.
Proof.
  unfold getFollowingByUserId. rewrite filter_In, includes_In, in_map_iff.
  split; intros [Hu (f & H1 & H2)]; (split; [exact Hu|]); exists f.
  - apply filter_In in H2 as [H2 H3]. apply Z.eqb_eq in H3. auto.
  - destruct H2 as [H2 H3]. split; [tauto|]. apply filter_In.
    split; [exact H1 | now apply Z.eqb_eq].
Qed.

Lemma followers_iff s b ua :
  In ua (getFollowersByUserId b s) <->
  In ua (JSMap.values (users s)) /\
  exists f, In f (JSMap.values (follows s)) /\
            Follow.followerId f = User.id ua /\ Follow.followedId f = b.
Proof.
  unfold getFollowersByUserId. rewrite filter_In, includes_In, in_map_iff.
  split; intros [Hu (f & H1 & H2)]; (split; [exact Hu|]); exists f.
  - apply filter_In in H2 as [H2 H3]. apply Z.eqb_eq in H3. auto.
  - destruct H2 as [H2 H3]. split; [tauto|]. apply filter_In.
    split; [exact H1 | now apply Z.eqb_eq].
Qed.

(* Overwriting the value stored under one id of a keyed map changes that
   one value of [values()] in place. *)
Lemma values_unchanged_absent {V} (idf : V -> Z) (m : JSMap.t V) next k v' :
  keyed idf m next -> ~ In k (JSMap.keys m) ->
  map (fun v => if idf v =? k then v' else v) (JSMap.values m) = JSMap.values m.
Proof.
  unfold JSMap.values, JSMap.keys.
  induction m as [|[k0 v0] r IH]; cbn [map fst snd]; [reflexivity|].
  intros Hk Hnin. apply keyed_cons_inv in Hk as (Hid & _ & _ & Hk).
  rewrite IH by (auto; intros H; apply Hnin; now right).
  destruct (idf v0 =? k) eqn:E; [|reflexivity].
  apply Z.eqb_eq in E. exfalso. apply Hnin. left. congruence.
Qed.

Lemma values_set_stored {V} (idf : V -> Z) (m : JSMap.t V) next k v' :
  keyed idf m next -> JSMap.get m k <> None ->
  JSMap.values (JSMap.set m k v')
  = map (fun v => if idf v =? k then v' else v) (JSMap.values m).
Proof.
  induction m as [|[k0 v0] r IH]; cbn [JSMap.get JSMap.set]; [congruence|].
  intros Hk Hg. pose proof (keyed_cons_inv idf _ _ _ _ Hk) as (Hid & _ & Hnin & Hk').
  unfold JSMap.values in *. cbn [map snd]. rewrite Hid.
  destruct (k0 =? k) eqn:E.
  - apply Z.eqb_eq in E. subst k0. cbn [map snd]. f_equal.
    symmetry. exact (values_unchanged_absent idf r next k v' Hk' Hnin).
  - cbn [map snd]. f_equal. exact (IH Hk' Hg).
Qed.

Lemma filter_map_same {A} (p : A -> bool) (f : A -> A) l :
  (forall x, p (f x) = p x) -> filter p (map f l) = map f (filter p l).
Proof.
  intros Hp. induction l as [|x r IH]; cbn; [reflexivity|].
  rewrite Hp, IH. now destruct (p x).
Qed.

Lemma change_password_users s u pw next :
  keyed User.id (users s) next -> JSMap.get (users s) (User.id u) = Some u ->
  JSMap.values (users (change_password (User.id u) pw s))
  = map (fun v => if User.id v =? User.id u then with_password u pw else v)
        (JSMap.values (users s)).
Proof.
  intros Hk Hg. unfold change_password. rewrite Hg. cbn [users set_users].
  apply (values_set_stored User.id _ next); [exact Hk | congruence].
Qed.

Lemma change_password_follows s k pw :
  follows (change_password k pw s) = follows s.
Proof.
  unfold change_password. now destruct (JSMap.get (users s) k).
Qed.

Lemma swap_password_id u pw v :
  User.id (if User.id v =? User.id u then with_password u pw else v) = User.id v.
Proof.
  destruct (User.id v =? User.id u) eqn:E; [|reflexivity].
  apply Z.eqb_eq in E. now rewrite E.
Qed.

Lemma swap_password_fresh u pw l :
  pw <> User.password u ->
  ~ In u (map (fun v => if User.id v =? User.id u then with_password u pw else v) l).
Proof.
  intros Hpw Hin. apply in_map_iff in Hin as (v & Hv & _).
  destruct (User.id v =? User.id u) eqn:E.
  - apply Hpw. now rewrite <- Hv.
  - subst v. now rewrite Z.eqb_refl in E.
Qed.

Lemma swap_password_in u pw l :
  In u l ->
  In (with_password u pw)
     (map (fun v => if User.id v =? User.id u then with_password u pw else v) l).
Proof.
  intros Hin. apply in_map_iff. exists u. now rewrite Z.eqb_refl.
Qed.

Lemma followers_change_password s userId u pw next :
  keyed User.id (users s) next -> JSMap.get (users s) (User.id u) = Some u ->
  getFollowersByUserId userId (change_password (User.id u) pw s)
  = map (fun v => if User.id v =? User.id u then with_password u pw else v)
        (getFollowersByUserId userId s).
Proof.
  intros Hk Hg. unfold getFollowersByUserId.
  rewrite change_password_follows, (change_password_users s u pw next Hk Hg).
  apply filter_map_same. intros v. now rewrite swap_password_id.
Qed.

Lemma following_change_password s userId u pw next :
  keyed User.id (users s) next -> JSMap.get (users s) (User.id u) = Some u ->
  getFollowingByUserId userId (change_password (User.id u) pw s)
  = map (fun v => if User.id v =? User.id u then with_password u pw else v)
        (getFollowingByUserId userId s).
Proof.
  intros Hk Hg. unfold getFollowingByUserId.
  rewrite change_password_follows, (change_password_users s u pw next Hk Hg).
  apply filter_map_same. intros v. now rewrite swap_password_id.
Qed.

(** C9. The followers request and the following request each answer with
    the list of complete stored records, password included, of exactly the
    stored users that a Follow record ties to the given user (as follower,
    respectively as followed).  Replacing the stored password of a stored
    user [u] changes each of the two answers in the place of [u]: a list
    that named [u] now carries the record with the new password and, when
    the password differs, no longer the old record.  The single-user lookup
    answers the same with either password. *)
Theorem C9_follow_lists_expose_password s userId u pw :
  reachable s ->
  JSMap.get (users s) (User.id u) = Some u ->
  let s' := change_password (User.id u) pw s in
  let swap := fun v => if User.id v =? User.id u then with_password u pw else v in
  (fst (followers_handler userId s) = Status200 (getFollowersByUserId userId s) /\
   (forall v, In v (getFollowersByUserId userId s) <->
      JSMap.get (users s) (User.id v) = Some v /\
      exists f, In f (JSMap.values (follows s)) /\
                Follow.followerId f = User.id v /\ Follow.followedId f = userId) /\
   fst (followers_handler userId s')
   = Status200 (map swap (getFollowersByUserId userId s)) /\
   (In u (getFollowersByUserId userId s) ->
    In (with_password u pw) (getFollowersByUserId userId s') /\
    (pw <> User.password u -> ~ In u (getFollowersByUserId userId s')))) /\
  (fst (following_handler userId s) = Status200 (getFollowingByUserId userId s) /\
   (forall v, In v (getFollowingByUserId userId s) <->
      JSMap.get (users s) (User.id v) = Some v /\
      exists f, In f (JSMap.values (follows s)) /\
                Follow.followerId f = userId /\ Follow.followedId f = User.id v) /\
   fst (following_handler userId s')
   = Status200 (map swap (getFollowingByUserId userId s)) /\
   (In u (getFollowingByUserId userId s) ->
    In (with_password u pw) (getFollowingByUserId userId s') /\
    (pw <> User.password u -> ~ In u (getFollowingByUserId userId s')))) /\
  fst (user_handler (User.id u) s') = fst (user_handler (User.id u) s) /\
  fst (user_handler (User.id u) s) = Status200 (UserWithoutPassword.of_user u).
Proof.
  intros Hr Hget. apply reachable_by_consistent in Hr. destruct Hr.
  cbv zeta.
  assert (Hstored : forall v, In v (JSMap.values (users s)) <->
                              JSMap.get (users s) (User.id v) = Some v).
  { intros v. split; [apply (keyed_in_get User.id _ _ _ users_keyed0)
                     | apply get_some_value]. }
  pose proof (followers_change_password s userId u pw _ users_keyed0 Hget) as Hfs.
  pose proof (following_change_password s userId u pw _ users_keyed0 Hget) as Hfg.
  refine (conj (conj _ (conj _ (conj _ _)))
            (conj (conj _ (conj _ (conj _ _))) (conj _ _))).
  - reflexivity.
  - intros v. rewrite followers_iff, Hstored. reflexivity.
  - unfold followers_handler, try_catch, bind, read, ret. cbn [fst].
    now rewrite Hfs.
  - intros Hin. rewrite Hfs. split.
    + now apply swap_password_in.
    + intros Hpw. now apply swap_password_fresh.
  - reflexivity.
  - intros v. rewrite following_iff, Hstored. reflexivity.
  - unfold following_handler, try_catch, bind, read, ret. cbn [fst].
    now rewrite Hfg.
  - intros Hin. rewrite Hfg. split.
    + now apply swap_password_in.
    + intros Hpw. now apply swap_password_fresh.
  - apply user_handler_change_password.
  - unfold user_handler, try_catch, getUser, bind, read, ret. now rewrite Hget.
Qed.

Lemma C9_follow_lists_expose_password_witness :
  let alice' := User.mk 1 "alice" "alice@example.org" "pw-a" (Int 5) None 100 in
  let bob' := User.mk 2 "bob" "bob@example.org" "pw-b" (Int 0) None 101 in
  (fst (following_handler 2 sample_store) = Status200 [alice'] /\
   fst (following_handler 2 (change_password 1 "changed" sample_store))
   = Status200 [with_password alice' "changed"] /\
   ~ In alice' (getFollowingByUserId 2 (change_password 1 "changed" sample_store))) /\
  (fst (followers_handler 1 sample_store) = Status200 [bob'] /\
   fst (followers_handler 1 (change_password 2 "changed" sample_store))
   = Status200 [with_password bob' "changed"] /\
   ~ In bob' (getFollowersByUserId 1 (change_password 2 "changed" sample_store))) /\
  fst (user_handler 1 (change_password 1 "changed" sample_store))
  = Status200 (UserWithoutPassword.of_user alice').
Proof.
  intros alice' bob'.
  assert (Ha : In alice' (getFollowingByUserId 2 sample_store))
    by (vm_compute; left; reflexivity).
  assert (Hb : In bob' (getFollowersByUserId 1 sample_store))
    by (vm_compute; left; reflexivity).
  assert (Hpa : "changed"%string <> User.password alice') by discriminate.
  assert (Hpb : "changed"%string <> User.password bob') by discriminate.
  destruct (C9_follow_lists_expose_password sample_store 2 alice' "changed"
              (reachable_run sample_trace) eq_refl)
    as (_ & (G1 & _ & G3 & G4) & U1 & U2).
  destruct (C9_follow_lists_expose_password sample_store 1 bob' "changed"
              (reachable_run sample_trace) eq_refl)
    as ((F1 & _ & F3 & F4) & _).
  refine (conj (conj G1 (conj G3 (proj2 (G4 Ha) Hpa)))
            (conj (conj F1 (conj F3 (proj2 (F4 Hb) Hpb))) _)).
  exact (eq_trans U1 U2).
Defined.

(** ** C7: the order of the recent notes *)

Section SortFacts.
Context {A : Type} (compareFn : A -> A -> Z).

Lemma insert_permutation x l : Permutation (insert compareFn x l) (x :: l).
Proof.
  induction l as [|y r IH]; cbn; [reflexivity|].
  destruct (compareFn x y <=? 0); [reflexivity|].
  rewrite IH. apply perm_swap.
Qed.

Lemma sort_permutation l : Permutation (sort compareFn l) l.
Proof.
  induction l as [|x l IH]; cbn; [reflexivity|].
  fold (sort compareFn l). rewrite insert_permutation. now constructor.
Qed.

Lemma sort_in x l : In x (sort compareFn l) <-> In x l.
Proof.
  split; apply Permutation_in;
    [apply sort_permutation | symmetry; apply sort_permutation].
Qed.
End SortFacts.

Lemma insert_recent_order x l :
  StronglySorted recent_order l ->
  Forall (fun y => Note.id x < Note.id y) l ->
  StronglySorted recent_order (insert newest_first x l).
Proof.
  induction l as [|y r IH]; intros Hs Hid; cbn.
  - repeat constructor.
  - inversion Hs as [|? ? Hs' Hy]; subst.
    inversion Hid as [|? ? Hxy Hid']; subst.
    unfold newest_first at 1.
    destruct (Note.createdAt y - Note.createdAt x <=? 0) eqn:E.
    + apply Z.leb_le in E. constructor; [exact Hs|].
      constructor.
      * unfold recent_order. lia.
      * rewrite Forall_forall in *. intros z Hz.
        specialize (Hy z Hz). specialize (Hid' z Hz).
        unfold recent_order in *. lia.
    + apply Z.leb_gt in E. constructor; [now apply IH|].
      rewrite Forall_forall in *. intros z Hz.
      apply (Permutation_in _ (insert_permutation newest_first x r)) in Hz.
      destruct Hz as [<-|Hz]; [unfold recent_order; lia | now apply Hy].
Qed.

Lemma sort_recent_order l :
  StronglySorted Z.lt (map Note.id l) ->
  StronglySorted recent_order (sort newest_first l).
Proof.
  induction l as [|x l IH]; intros Hs; cbn; [constructor|].
  cbn in Hs. inversion Hs as [|? ? Hs' Hx]; subst.
  fold (sort newest_first l). apply insert_recent_order; [now apply IH|].
  apply Forall_forall. intros y Hy. apply sort_in in Hy.
  rewrite Forall_forall in Hx. apply Hx. now apply in_map.
Qed.

Lemma keyed_ids_ascending {V} (idf : V -> Z) (m : JSMap.t V) next :
  keyed idf m next -> StronglySorted Z.lt (map idf (JSMap.values m)).
Proof.
  intros [Hs Hf].
  replace (map idf (JSMap.values m)) with (JSMap.keys m); [exact Hs|].
  unfold JSMap.keys, JSMap.values. rewrite map_map.
  apply map_ext_in. intros kv Hin.
  rewrite Forall_forall in Hf. symmetry. now apply Hf.
Qed.

Lemma slice_firstn {A} (limit : Z) (l : list A) :
  0 <= limit -> slice 0 limit l = firstn (Z.to_nat limit) l.
Proof.
  intros Hl. unfold slice. cbn [Z.ltb Z.compare].
  assert (E : (limit <? 0) = false) by (apply Z.ltb_ge; lia). rewrite E.
  rewrite (Z.min_l 0) by lia. cbn [Z.to_nat skipn]. rewrite Z.sub_0_r.
  destruct (Z.le_gt_cases limit (Z.of_nat (List.length l))) as [Hle|Hgt].
  - now rewrite Z.min_l by lia.
  - rewrite Z.min_r by lia. rewrite Nat2Z.id.
    rewrite firstn_all. symmetry. apply firstn_all2. lia.
Qed.

(** C7 (as the code has it). For a reachable store and a limit that is not
    negative, the recent notes are the first [limit] notes of the stored
    notes ordered by descending [createdAt], notes with the same
    [createdAt] in ascending order of id. *)
Theorem C7_recent_order s limit :
  reachable s -> 0 <= limit ->
  exists ordered,
    Permutation ordered (JSMap.values (notes s)) /\
    StronglySorted recent_order ordered /\
    getRecentNotes limit s = firstn (Z.to_nat limit) ordered.
Proof.
  intros Hr Hl. apply reachable_by_consistent in Hr. destruct Hr.
  exists (sort newest_first (JSMap.values (notes s))).
  split; [apply sort_permutation|]. split.
  - apply sort_recent_order. eapply keyed_ids_ascending; eauto.
  - unfold getRecentNotes. now apply slice_firstn.
Qed.

Lemma C7_recent_order_witness :
  exists ordered,
    Permutation ordered (JSMap.values (notes same_time_store)) /\
    StronglySorted recent_order ordered /\
    getRecentNotes 1 same_time_store = firstn 1 ordered.
Proof.
  assert (H0 : 0 <= 1) by lia.
  exact (C7_recent_order same_time_store 1 (reachable_run same_time_trace) H0).
Defined.

(** C7, counterexample. Two notes stored with the same [createdAt] come out
    with the smaller id first, so the list is not ordered with ties by
    descending id. *)
Lemma C7_ties_not_by_descending_id :
  ~ (forall s limit, reachable s ->
                     StronglySorted recent_order_spec (getRecentNotes limit s)).
Proof.
  intros H. specialize (H same_time_store 6 (reachable_run same_time_trace)).
  assert (E : getRecentNotes 6 same_time_store
              = [Note.of_insert (sample_note 1 false (Num 0)) 1 200;
                 Note.of_insert (sample_note 1 false (Num 0)) 2 200])
    by (vm_compute; reflexivity).
  rewrite E in H. inversion H as [|a l _ Hf]; subst.
  inversion Hf as [|b l' Hab _]; subst.
  unfold recent_order_spec in Hab. cbn in Hab. lia.
Qed.

(* A negative limit reaches [slice(0, limit)] as it is and drops notes from
   the end of the list: with two notes and limit -1 one note is returned. *)
Lemma recent_negative_limit :
  getRecentNotes (-1) same_time_store
  = [Note.of_insert (sample_note 1 false (Num 0)) 1 200].
Proof. reflexivity. Qed.

(** ** C5: the parent of a reply *)

Lemma reply_handler_missing s userId discussionId body now :
  JSMap.get (discussions s) discussionId = None ->
  reply_handler (Some userId) discussionId body now s
  = (Status404 "Discussion not found", s).
Proof.
  intros Hd. unfold_storage. cbn. now rewrite Hd.
Qed.

(** C5 (as the code has it). A reply to an existing discussion is stored
    under the next reply id with the [parentReplyId] the request carries,
    whatever that id refers to, and [repliesFor] of the discussion then
    lists it; the request is refused only when the discussion is missing. *)
Theorem C5_reply_parent_unchecked s userId discussionId body now d :
  JSMap.get (discussions s) discussionId = Some d ->
  let r := reply_handler (Some userId) discussionId body now s in
  let reply :=
    DiscussionReply.mk (currentDiscussionReplyId s) discussionId userId
      (ReplyBody.content body) (ReplyBody.parentReplyId body)
      (ReplyBody.attachmentUrl body) (ReplyBody.attachmentType body) 0 now now in
  fst r = Status201 reply /\
  JSMap.get (discussionReplies (snd r)) (currentDiscussionReplyId s) = Some reply /\
  In reply (getDiscussionRepliesByDiscussionId discussionId (snd r)).
Proof.
  intros Hd r reply. subst r reply. unfold_storage. cbn. rewrite Hd. cbn.
  split; [reflexivity|]. split; [apply get_set_eq|].
  unfold getDiscussionRepliesByDiscussionId. cbn.
  apply sort_in. apply filter_In. split.
  - apply in_values_set.
  - cbn. apply Z.eqb_refl.
Qed.

Lemma C5_reply_parent_unchecked_witness :
  let r := reply_handler (Some 1) 1 dangling_reply 300 discussion_store in
  let reply := DiscussionReply.mk 1 1 1 "See above" (Some 99) None None 0 300 300 in
  fst r = Status201 reply /\
  JSMap.get (discussionReplies (snd r)) 1 = Some reply /\
  In reply (getDiscussionRepliesByDiscussionId 1 (snd r)).
Proof.
  exact (C5_reply_parent_unchecked discussion_store 1 1 dangling_reply 300
           (Discussion.mk 1 1 "Exam" "Which chapters?" "academic" 0 0 false 101 101)
           eq_refl).
Defined.

(** C5, counterexample. In a store with one discussion and no reply at all,
    a reply naming the parent 99 is answered with 201 and stored, and
    [repliesFor] of the discussion lists it although no reply 99 exists. *)
Lemma C5_dangling_parent_accepted :
  let r := reply_handler (Some 1) 1 dangling_reply 300 discussion_store in
  JSMap.get (discussions discussion_store) 1 <> None /\
  JSMap.get (discussionReplies discussion_store) 99 = None /\
  (exists reply,
      fst r = Status201 reply /\
      DiscussionReply.parentReplyId reply = Some 99 /\
      In reply (getDiscussionRepliesByDiscussionId 1 (snd r))) /\
  snd r <> discussion_store /\
  JSMap.get (discussionReplies (snd r)) 99 = None.
Proof.
  cbv zeta. split; [vm_compute; discriminate|]. split; [reflexivity|]. split.
  - eexists. split; [reflexivity|]. split; [reflexivity|].
    vm_compute. left. reflexivity.
  - split; [|reflexivity]. intros E.
    apply (f_equal currentDiscussionReplyId) in E. vm_compute in E. discriminate.
Qed.

(** ** C3 and C8: prices below zero *)

Lemma nonneg_get s k u :
  nonneg_coins s -> JSMap.get (users s) k = Some u ->
  exists c, User.coins u = Int c /\ 0 <= c.
Proof.
  unfold nonneg_coins. intros H Hg. rewrite Forall_forall in H.
  apply H. eapply get_some_value; eauto.
Qed.

Lemma price_get s k n :
  prices_ok s -> JSMap.get (notes s) k = Some n -> price_ok (Note.coinPrice n).
Proof.
  unfold prices_ok. intros H Hg. rewrite Forall_forall in H.
  apply H. eapply get_some_value; eauto.
Qed.

Lemma price_ok_number p :
  price_ok p -> exists z, ToNumber p = Int z /\ 0 <= z.
Proof.
  destruct p as [z| |]; cbn; intros H.
  - now exists z.
  - exists 0. split; [reflexivity | lia].
  - contradiction.
Qed.

Lemma nonneg_set_coins us k u c :
  Forall (fun u => exists c, User.coins u = Int c /\ 0 <= c) (JSMap.values us) ->
  0 <= c ->
  Forall (fun u => exists c, User.coins u = Int c /\ 0 <= c)
         (JSMap.values (JSMap.set us k (User.with_coins u (Int c)))).
Proof.
  intros H Hc. apply Forall_values_set; [exact H|]. now exists c.
Qed.

(* With prices that are not negative, every operation keeps the balances
   at or above zero. *)
Lemma nonneg_exec s op now :
  nonneg_coins s -> prices_ok s -> nonneg_prices op ->
  nonneg_coins (exec op now s) /\ prices_ok (exec op now s).
Proof.
  intros Hc Hp Hop. destruct op; cbn [exec]; unfold_storage; cbn.
  - split; [|exact Hp]. unfold nonneg_coins; cbn.
    apply Forall_values_set; [exact Hc|]. exists 0. cbn. split; [reflexivity | lia].
  - assert (Hp' : Forall (fun n => price_ok (Note.coinPrice n))
                    (JSMap.values (JSMap.set (notes s) (currentNoteId s)
                       (Note.of_insert insertNote (currentNoteId s) now))))
      by (apply Forall_values_set; [exact Hp | exact Hop]).
    destruct (JSMap.get (users s) (InsertNote.userId insertNote)) as [u|] eqn:Hu; cbn.
    + split; [|exact Hp']. unfold nonneg_coins; cbn.
      destruct (nonneg_get s _ u Hc Hu) as (c & Ec & Hc0). rewrite Ec.
      destruct (InsertNote.isPremium insertNote); cbn;
        apply nonneg_set_coins; auto; lia.
    + split; [exact Hc | exact Hp'].
  - destruct (JSMap.get (notes s) noteId); cbn; split; assumption.
  - destruct (JSMap.get (notes s) noteId) as [n|] eqn:Hn; cbn; [|split; assumption].
    pose proof (price_get s _ n Hp Hn) as Hpn.
    destruct (find _ (JSMap.values (likes s))); cbn; rewrite Hn; cbn;
      (split; [exact Hc|]); unfold prices_ok; cbn;
      (apply Forall_values_set; [exact Hp | exact Hpn]).
  - destruct (JSMap.get (notes s) noteId) as [n|] eqn:Hn; cbn; [|split; assumption].
    pose proof (price_get s _ n Hp Hn) as Hpn.
    assert (Hnotes : forall d,
               Forall (fun n => price_ok (Note.coinPrice n))
                      (JSMap.values (JSMap.set (notes s) noteId (Note.with_downloads n d))))
      by (intros d; apply Forall_values_set; [exact Hp | exact Hpn]).
    destruct (price_ok_number _ Hpn) as (z & Ez & Hz).
    destruct (Note.isPremium n); cbn.
    + destruct (JSMap.get (users s) userId) as [u|] eqn:Hu; cbn; [|split; assumption].
      destruct (nonneg_get s _ u Hc Hu) as (c & Ec & Hc0).
      rewrite Ez, Ec. cbn.
      destruct (c <? z) eqn:Hlt; cbn; [split; assumption|].
      apply Z.ltb_ge in Hlt. rewrite Hu. cbn. rewrite Ec. cbn.
      assert (Hbuyer : Forall (fun u => exists c, User.coins u = Int c /\ 0 <= c)
                (JSMap.values (JSMap.set (users s) userId
                                 (User.with_coins u (Int (c + - z))))))
        by (apply nonneg_set_coins; [exact Hc | lia]).
      destruct (userId =? Note.userId n) eqn:Eq; cbn.
      * rewrite Hn. cbn. split; [exact Hbuyer | apply Hnotes].
      * apply Z.eqb_neq in Eq. rewrite get_set_neq by assumption.
        destruct (JSMap.get (users s) (Note.userId n)) as [us|] eqn:Hus; cbn.
        -- rewrite Hn. cbn. split; [|apply Hnotes].
           destruct (nonneg_get s _ us Hc Hus) as (cs & Ecs & Hcs0).
           unfold nonneg_coins; cbn. rewrite Ecs. cbn.
           apply nonneg_set_coins; [exact Hbuyer | lia].
        -- split; [exact Hbuyer | exact Hp].
    + rewrite Hn. cbn. split; [exact Hc | apply Hnotes].
  - destruct (followerId =? followedId); cbn; [split; assumption|].
    destruct (JSMap.get (users s) followedId); cbn; [|split; assumption].
    destruct (find _ (JSMap.values (follows s))) eqn:Hf; cbn;
      rewrite ?Hf; cbn; split; assumption.
  - split; assumption.
  - destruct (JSMap.get (discussions s) id) eqn:E; cbn; rewrite ?E; cbn;
      split; assumption.
  - destruct (JSMap.get (discussions s) discussionId); cbn; split; assumption.
Qed.

(* The invariant behind C3: as long as no note is created with a negative
   price, no balance is negative. *)
Lemma nonneg_coins_reachable s :
  reachable_by nonneg_prices s -> nonneg_coins s /\ prices_ok s.
Proof.
  induction 1 as [|s op now _ [IHc IHp] Hop].
  - split; constructor.
  - now apply nonneg_exec.
Qed.

(** C3, failing input. Alice uploads a premium note priced -100; when bob
    downloads it the funds check passes, bob is credited 100 and alice is
    charged 100 she does not have: her balance in this reachable store is
    -90. *)
Theorem C3_negative_price_drives_balance_negative :
  reachable (run negative_price_trace new_MemStorage) /\
  fst (download_handler (Some 2) 1 103
         (run (firstn 3 negative_price_trace) new_MemStorage))
    = Status200 (DownloadOk.mk "Download successful" "/api/files/ab-g.pdf" "g.pdf") /\
  balance (run negative_price_trace new_MemStorage) 1 = Some (Int (-90)) /\
  balance (run negative_price_trace new_MemStorage) 2 = Some (Int 100).
Proof.
  split; [apply reachable_run|]. repeat split; reflexivity.
Qed.

(** C8, failing input. An upload whose [coinPrice] is negative passes the
    insert schema, which puts no bound on the field: the note is stored
    with that price under the next id, the answer is 201, and the uploader
    is credited the upload bonus. *)
Theorem C8_negative_price_stored fileExtOf s userId body uniqueId now fd name u p :
  UploadBody.fileData body = Some fd ->
  FileData.fileName fd = Some name ->
  name <> ""%string ->
  In (fileExtOf name) ALLOWED_FILE_TYPES ->
  UploadBody.coinPrice body = Num p -> p < 0 ->
  JSMap.get (users s) userId = Some u ->
  let r := upload_handler fileExtOf (Some userId) body uniqueId now s in
  exists note,
    fst r = Status201 note /\
    Note.coinPrice note = Num p /\
    JSMap.get (notes (snd r)) (currentNoteId s) = Some note /\
    balance (snd r) userId
    = Some (num_add (User.coins u)
                    (if UploadBody.isPremium body then Int 10 else Int 5)).
Proof.
  intros Hfd Hname Hne Hext Hp Hneg Hu r. subst r.
  assert (E1 : (name =? "")%string = false) by now apply String.eqb_neq.
  assert (E2 : existsb (String.eqb (fileExtOf name)) ALLOWED_FILE_TYPES = true).
  { apply existsb_exists. exists (fileExtOf name). split; [exact Hext|].
    apply String.eqb_refl. }
  unfold upload_handler, authenticated, try_catch.
  rewrite Hfd, Hname, E1, E2. cbn [negb].
  unfold_storage. cbn. rewrite Hu. cbn.
  eexists. split; [reflexivity|]. split; [exact Hp|]. split.
  - apply get_set_eq.
  - unfold balance. cbn. rewrite get_set_eq. reflexivity.
Qed.

Lemma C8_negative_price_stored_witness :
  let r := upload_handler (fun _ => "pdf"%string) (Some 1) negative_price_upload
             "ab" 300 sample_store in
  exists note,
    fst r = Status201 note /\
    Note.coinPrice note = Num (-5) /\
    JSMap.get (notes (snd r)) 2 = Some note /\
    balance (snd r) 1 = Some (Int 15).
Proof.
  assert (Hneg : -5 < 0) by lia.
  assert (Hne : "g.pdf"%string <> ""%string) by discriminate.
  assert (Hext : In "pdf"%string ALLOWED_FILE_TYPES) by (left; reflexivity).
  exact (C8_negative_price_stored (fun _ => "pdf"%string) sample_store 1
           negative_price_upload "ab" 300
           (FileData.mk (Some "g.pdf"%string) (Some 1024)) "g.pdf"%string
           (User.mk 1 "alice" "alice@example.org" "pw-a" (Int 5) None 100) (-5)
           eq_refl eq_refl Hne Hext eq_refl Hneg eq_refl).
Defined.

(** * Further properties of the store and its handlers *)

(* Case analysis along the lookups and tests of an unfolded handler. *)
Ltac handler_cases :=
  repeat (cbn;
          match goal with
          | H : ?x = _ |- context [match ?x with _ => _ end] => rewrite H
          | |- context [match JSMap.get ?m ?k with _ => _ end] =>
              destruct (JSMap.get m k) eqn:?
          | |- context [match find ?p ?l with _ => _ end] =>
              destruct (find p l) eqn:?
          | |- context [match ?x with Some _ => _ | None => _ end] =>
              destruct x eqn:?
          | |- context [if ?b then _ else _] => destruct b eqn:?
          end).

(** X1. A request answered with a client error (status 400 to 499) has
    not changed the store. *)
Theorem X1_client_error_keeps_store fileExtOf req now s :
  400 <= fst (serve fileExtOf req now s) < 500 ->
  snd (serve fileExtOf req now s) = s.
Proof.
  destruct req; cbn [serve answered fst snd];
    try destruct auth as [userId|]; try reflexivity;
    unfold upload_handler; unfold_storage; unfold_storage; handler_cases;
    intros H; try reflexivity; cbn [status fst] in H; lia.
Qed.

Lemma X1_client_error_keeps_store_witness :
  snd (serve (fun _ => "pdf"%string) (ReqLike (Some 2) 99) 300 sample_store)
  = sample_store.
Proof.
  apply X1_client_error_keeps_store.
  vm_compute. split; [discriminate | reflexivity].
Defined.

(** X2. An upload is answered 201 only for a file whose extension is on the
    allow-list and an uploader that is stored; the note it answers with
    has the next note id, the uploader as owner, zero downloads and likes,
    and is what the note lookup then returns. *)
Theorem X2_upload_accepted fileExtOf userId body uniqueId now s note :
  fst (upload_handler fileExtOf (Some userId) body uniqueId now s) = Status201 note ->
  In (Note.fileType note) ALLOWED_FILE_TYPES /\
  JSMap.get (users s) userId <> None /\
  Note.id note = currentNoteId s /\
  Note.userId note = userId /\
  Note.downloads note = 0 /\ Note.likes note = 0 /\ Note.createdAt note = now /\
  fst (note_handler (Note.id note)
         (snd (upload_handler fileExtOf (Some userId) body uniqueId now s)))
  = Status200 note.
Proof.
  unfold upload_handler, authenticated, try_catch.
  destruct (UploadBody.fileData body) as [fd|]; [|discriminate].
  destruct (FileData.fileName fd) as [name|]; [|discriminate].
  destruct (name =? "")%string; [discriminate|].
  destruct (existsb (String.eqb (fileExtOf name)) ALLOWED_FILE_TYPES) eqn:Hext;
    cbn [negb]; [|discriminate].
  unfold_storage. cbn.
  destruct (JSMap.get (users s) userId) as [u|] eqn:Hu; cbn; [|discriminate].
  intros [= <-]. cbn.
  split.
  - apply existsb_exists in Hext as (x & Hin & Hx).
    apply String.eqb_eq in Hx. now subst x.
  - split; [discriminate|]. repeat (split; [reflexivity|]).
    unfold note_handler, try_catch, getNoteById, bind, read, ret. cbn.
    now rewrite get_set_eq.
Qed.

Lemma X2_upload_accepted_witness :
  let note := Note.mk 2 "Graphs" "Lecture notes" 1 "academic" "/api/files/ab-g.pdf"
                "g.pdf" 1024 "pdf" true (Num (-5)) Null 0 0 None 300 in
  In (Note.fileType note) ALLOWED_FILE_TYPES /\ Note.id note = 2.
Proof.
  intros note.
  destruct (X2_upload_accepted (fun _ => "pdf"%string) 1 negative_price_upload
              "ab" 300 sample_store note eq_refl) as (H1 & _ & H3 & _).
  exact (conj H1 H3).
Defined.

(** X3. Creating a note for a stored user adds exactly 10 coins to that
    user's balance when the note is premium and 5 otherwise; the user's
    other fields and every other user stay as they were. *)
Theorem X3_upload_bonus s insertNote now u :
  JSMap.get (users s) (InsertNote.userId insertNote) = Some u ->
  let r := createNote insertNote now s in
  fst r = Returned (Note.of_insert insertNote (currentNoteId s) now) /\
  JSMap.get (users (snd r)) (InsertNote.userId insertNote)
  = Some (User.with_coins u
            (num_add (User.coins u)
                     (if InsertNote.isPremium insertNote then Int 10 else Int 5))) /\
  (forall k, k <> InsertNote.userId insertNote ->
             JSMap.get (users (snd r)) k = JSMap.get (users s) k).
Proof.
  intros Hu r. subst r. unfold_storage. cbn. rewrite Hu. cbn.
  split; [reflexivity|]. split.
  - rewrite get_set_eq. now destruct (InsertNote.isPremium insertNote).
  - intros k Hk. now rewrite get_set_neq by congruence.
Qed.

Lemma X3_upload_bonus_witness :
  JSMap.get (users (snd (createNote (sample_note 2 true (Num 3)) 300 sample_store))) 2
  = Some (User.mk 2 "bob" "bob@example.org" "pw-b" (Int 10) None 101).
Proof.
  destruct (X3_upload_bonus sample_store (sample_note 2 true (Num 3)) 300
              (User.mk 2 "bob" "bob@example.org" "pw-b" (Int 0) None 101) eq_refl)
    as (_ & H & _).
  exact H.
Defined.

(** X4. Downloading a note that is not premium is answered 200 for any
    authenticated user id, stored or not: no user record changes, one
    Download record is added, the note's [downloads] grows by one and
    every other note stays as it was. *)
Theorem X4_free_download s userId noteId now n :
  JSMap.get (notes s) noteId = Some n ->
  Note.isPremium n = false ->
  let r := download_handler (Some userId) noteId now s in
  fst r = Status200 (DownloadOk.mk "Download successful"
                       (Note.fileUrl n) (Note.fileName n)) /\
  users (snd r) = users s /\
  JSMap.get (notes (snd r)) noteId
  = Some (Note.with_downloads n (Note.downloads n + 1)) /\
  (forall k, k <> noteId -> JSMap.get (notes (snd r)) k = JSMap.get (notes s) k) /\
  downloads (snd r)
  = JSMap.set (downloads s) (currentDownloadId s)
              (Download.mk (currentDownloadId s) noteId userId now) /\
  likes (snd r) = likes s.
Proof.
  intros Hn Hp r. subst r. unfold_storage. cbn. rewrite Hn. cbn.
  rewrite Hp. cbn. rewrite Hn. cbn.
  split; [reflexivity|]. split; [reflexivity|]. split; [apply get_set_eq|].
  split; [|split; reflexivity].
  intros k Hk. now rewrite get_set_neq by congruence.
Qed.

Lemma X4_free_download_witness :
  let r := download_handler (Some 77) 1 300 sample_store in
  users (snd r) = users sample_store /\
  option_map Note.downloads (JSMap.get (notes (snd r)) 1) = Some 2.
Proof.
  destruct (X4_free_download sample_store 77 1 300
              (Note.with_likes
                 (Note.with_downloads
                    (Note.of_insert (sample_note 1 false (Num 0)) 1 102) 1) 1)
              eq_refl eq_refl) as (_ & H2 & H3 & _).
  cbn zeta in *. rewrite H3. exact (conj H2 eq_refl).
Defined.

(** X5. When the owner of a premium note is not stored, a buyer with
    enough coins is charged, the request is answered 500, and neither a
    Download record nor the note's counter is written. *)
Theorem X5_charge_without_seller s buyer noteId now n ub :
  JSMap.get (notes s) noteId = Some n ->
  Note.isPremium n = true ->
  JSMap.get (users s) buyer = Some ub ->
  num_lt (User.coins ub) (ToNumber (Note.coinPrice n)) = false ->
  JSMap.get (users s) (Note.userId n) = None ->
  let r := download_handler (Some buyer) noteId now s in
  fst r = Status500 "Failed to process download" /\
  JSMap.get (users (snd r)) buyer
  = Some (User.with_coins ub
            (num_add (User.coins ub) (num_neg (ToNumber (Note.coinPrice n))))) /\
  downloads (snd r) = downloads s /\
  notes (snd r) = notes s.
Proof.
  intros Hn Hp Hb Hlt Hs r. subst r.
  assert (Hne : (buyer =? Note.userId n) = false).
  { apply Z.eqb_neq. intros E. rewrite E in Hb. congruence. }
  unfold_storage. cbn. rewrite Hn. cbn. rewrite Hp. cbn. rewrite Hb. cbn.
  rewrite Hlt. cbn. rewrite Hb. cbn. rewrite Hne. cbn.
  apply Z.eqb_neq in Hne. rewrite get_set_neq by assumption. rewrite Hs. cbn.
  split; [reflexivity|]. split; [apply get_set_eq|]. split; reflexivity.
Qed.

Lemma X5_charge_without_seller_witness :
  let r := download_handler (Some 1) 2 300 orphan_store in
  fst r = Status500 "Failed to process download" /\
  balance (snd r) 1 = Some (Int 2) /\
  downloads (snd r) = downloads orphan_store.
Proof.
  destruct (X5_charge_without_seller orphan_store 1 2 300
              (Note.of_insert (sample_note 9 true (Num 3)) 2 102)
              (User.mk 1 "alice" "alice@example.org" "pw-a" (Int 5) None 100)
              eq_refl eq_refl eq_refl eq_refl eq_refl) as (H1 & H2 & H3 & _).
  cbn zeta in *. unfold balance. rewrite H2. exact (conj H1 (conj eq_refl H3)).
Defined.

(* The toggle writes the Like records and the one note, nothing else. *)
Lemma createOrToggleLike_frame s insertLike now :
  let r := createOrToggleLike insertLike now s in
  users (snd r) = users s /\
  downloads (snd r) = downloads s /\
  (forall k, k <> InsertLike.noteId insertLike ->
             JSMap.get (notes (snd r)) k = JSMap.get (notes s) k).
Proof.
  cbv zeta. unfold_storage. cbn.
  destruct (find _ (JSMap.values (likes s))); cbn;
    destruct (JSMap.get (notes s) (InsertLike.noteId insertLike)); cbn;
    (split; [reflexivity|]); (split; [reflexivity|]); intros k Hk;
    try reflexivity; now rewrite get_set_neq by congruence.
Qed.

Lemma like_handler_present s userId noteId now n :
  JSMap.get (notes s) noteId = Some n ->
  like_handler (Some userId) noteId now s
  = (match fst (createOrToggleLike (InsertLike.mk noteId userId) now s) with
     | Returned result => Status200 (isSome result)
     | Thrown _ => Status500 "Failed to process like"
     end,
     snd (createOrToggleLike (InsertLike.mk noteId userId) now s)).
Proof.
  intros Hn. unfold like_handler, authenticated, try_catch, getNoteById,
    bind at 1, read. rewrite Hn. unfold bind, ret.
  now destruct (createOrToggleLike (InsertLike.mk noteId userId) now s) as [[r|e] s'].
Qed.

(** X6. In a reachable store, a like request for a stored note answers
    with the opposite of the user's previous liked state, which is also the
    liked state afterwards; the note's [likes] moves by exactly one in that
    direction, and no user, no Download record and no other note changes. *)
Theorem X6_like_request s userId noteId now n :
  reachable s -> JSMap.get (notes s) noteId = Some n ->
  let r := like_handler (Some userId) noteId now s in
  let before := liked s userId noteId in
  fst r = Status200 (negb before) /\
  liked (snd r) userId noteId = negb before /\
  JSMap.get (notes (snd r)) noteId
  = Some (Note.with_likes n (Note.likes n + (if before then -1 else 1))) /\
  users (snd r) = users s /\
  downloads (snd r) = downloads s /\
  (forall k, k <> noteId -> JSMap.get (notes (snd r)) k = JSMap.get (notes s) k).
Proof.
  intros Hr Hn r before. subst r before.
  apply reachable_by_consistent in Hr.
  rewrite (like_handler_present s userId noteId now n Hn). cbn [fst snd].
  pose proof (createOrToggleLike_present s noteId userId now n Hr Hn) as [_ H].
  pose proof (createOrToggleLike_frame s (InsertLike.mk noteId userId) now)
    as (Hu & Hd & Hk).
  cbn zeta in H, Hu, Hd, Hk. cbn [InsertLike.noteId] in Hk.
  destruct (liked s userId noteId).
  - destruct H as (H1 & H2 & H3 & _). rewrite H1. cbn.
    repeat split; auto.
  - destruct H as ([like H1] & H2 & H3 & _). rewrite H1. cbn.
    repeat split; auto.
Qed.

Lemma X6_like_request_witness :
  let r := like_handler (Some 2) 1 300 sample_store in
  fst r = Status200 false /\ liked (snd r) 2 1 = false.
Proof.
  destruct (X6_like_request sample_store 2 1 300
              (Note.with_likes
                 (Note.with_downloads
                    (Note.of_insert (sample_note 1 false (Num 0)) 1 102) 1) 1)
              (reachable_run sample_trace) eq_refl) as (H1 & H2 & _).
  exact (conj H1 H2).
Defined.

(** ** References between the records *)

Lemma Forall_get_set_dom {V W} (f : W -> Z) (P : W -> Prop)
  (m : JSMap.t V) k v (l : list W) :
  Forall (fun x => P x /\ JSMap.get m (f x) <> None) l ->
  Forall (fun x => P x /\ JSMap.get (JSMap.set m k v) (f x) <> None) l.
Proof.
  intros H. eapply Forall_impl; [|exact H]. cbn.
  intros x [HP Hx]. split; [exact HP | now apply get_set_dom].
Qed.

Lemma Forall_get_set_dom' {V W} (f : W -> Z)
  (m : JSMap.t V) k v (l : list W) :
  Forall (fun x => JSMap.get m (f x) <> None) l ->
  Forall (fun x => JSMap.get (JSMap.set m k v) (f x) <> None) l.
Proof.
  intros H. eapply Forall_impl; [|exact H]. cbn.
  intros x Hx. now apply get_set_dom.
Qed.

Lemma keyed_set_views ds next k d v :
  keyed Discussion.id ds next -> JSMap.get ds k = Some d ->
  keyed Discussion.id (JSMap.set ds k (Discussion.with_views d v)) next.
Proof.
  intros Hk Hg. eapply keyed_set_present; eauto.
  cbn. eapply keyed_get_id; eauto.
Qed.

Ltac integrity_goal :=
  first
    [ assumption
    | apply keyed_set_fresh; [assumption | reflexivity]
    | eapply keyed_set_views; eassumption
    | apply keyed_delete; assumption
    | apply Forall_values_delete; assumption
    | apply refer_set_notes; assumption
    | apply Forall_get_set_dom; assumption
    | apply Forall_get_set_dom'; assumption
    | apply Forall_get_set_dom; apply Forall_get_set_dom; assumption
    | eapply refer_set_fresh; [eassumption | eassumption | cbn; congruence]
    | apply Forall_values_set; [assumption | cbn; congruence]
    | apply Forall_values_set;
      [apply Forall_get_set_dom'; assumption | cbn; rewrite get_set_eq; discriminate]
    | apply Forall_values_set;
      [assumption | cbn; split; [apply Z.eqb_neq; assumption | congruence]] ].

Lemma integrity_new : integrity new_MemStorage.
Proof.
  constructor; cbn; try apply keyed_empty; constructor.
Qed.

Lemma integrity_exec s op now : integrity s -> integrity (exec op now s).
Proof.
  intros H. destruct op; cbn [exec]; unfold_storage; unfold_storage;
    handler_cases; destruct H; constructor; cbn; integrity_goal.
Qed.

Lemma reachable_by_integrity allowed s : reachable_by allowed s -> integrity s.
Proof.
  induction 1 as [|s op now _ IH _]; [exact integrity_new | now apply integrity_exec].
Qed.

(** X7. In a reachable store every Download, Like and Comment record names
    a note that is stored, and every reply names a discussion that is
    stored. *)
Theorem X7_records_name_stored_targets s :
  reachable s ->
  (forall d, In d (JSMap.values (downloads s)) ->
             JSMap.get (notes s) (Download.noteId d) <> None) /\
  (forall l, In l (JSMap.values (likes s)) ->
             JSMap.get (notes s) (Like.noteId l) <> None) /\
  (forall c, In c (JSMap.values (comments s)) ->
             JSMap.get (notes s) (Comment.noteId c) <> None) /\
  (forall r, In r (JSMap.values (discussionReplies s)) ->
             JSMap.get (discussions s) (DiscussionReply.discussionId r) <> None).
Proof.
  intros Hr. pose proof (reachable_by_consistent _ _ Hr) as [].
  pose proof (reachable_by_integrity _ _ Hr) as [].
  unfold refer in *. rewrite Forall_forall in *. auto.
Qed.

Lemma X7_records_name_stored_targets_witness :
  JSMap.get (notes sample_store) (Download.noteId (Download.mk 1 1 2 103)) <> None.
Proof.
  apply (proj1 (X7_records_name_stored_targets sample_store
                  (reachable_run sample_trace))).
  vm_compute. left. reflexivity.
Defined.

(** X8. In a reachable store no Follow record has the follower as the
    followed user, and the followed user of every record is stored. *)
Theorem X8_follow_records_sound s f :
  reachable s -> In f (JSMap.values (follows s)) ->
  Follow.followerId f <> Follow.followedId f /\
  JSMap.get (users s) (Follow.followedId f) <> None.
Proof.
  intros Hr Hin. pose proof (reachable_by_integrity _ _ Hr) as [].
  rewrite Forall_forall in follows_refer0. now apply follows_refer0.
Qed.

Lemma X8_follow_records_sound_witness :
  Follow.followerId (Follow.mk 1 2 1 105) <> Follow.followedId (Follow.mk 1 2 1 105) /\
  JSMap.get (users sample_store) 1 <> None.
Proof.
  apply (X8_follow_records_sound sample_store (Follow.mk 1 2 1 105)).
  - apply reachable_run.
  - vm_compute. left. reflexivity.
Defined.

(** X9. In a reachable store a user has at most one Like record per note. *)
Theorem X9_one_like_per_user_and_note s userId noteId :
  reachable s ->
  count (is_like_of userId noteId) (JSMap.values (likes s)) <= 1.
Proof.
  intros Hr. apply reachable_by_consistent in Hr. destruct Hr.
  apply likes_unique0.
Qed.

Lemma X9_one_like_per_user_and_note_witness :
  count (is_like_of 2 1) (JSMap.values (likes sample_store)) <= 1.
Proof.
  exact (X9_one_like_per_user_and_note sample_store 2 1 (reachable_run sample_trace)).
Defined.

(** X10. In a reachable store, for two different users of whom the followed
    one is stored, the answer of the follow request is what the
    is-following query reports afterwards, and the opposite of what it
    reported before. *)
Theorem X10_is_following_matches_toggle s followerId followedId now :
  reachable s -> followerId <> followedId ->
  JSMap.get (users s) followedId <> None ->
  let r := follow_handler (Some followerId) followedId now s in
  exists following,
    fst r = Status200 following /\
    fst (is_following_handler (Some followerId) followedId (snd r))
    = Status200 following /\
    fst (is_following_handler (Some followerId) followedId s)
    = Status200 (negb following).
Proof.
  intros Hr Hne Hex r. subst r. apply reachable_by_consistent in Hr.
  destruct (JSMap.get (users s) followedId) as [ub|] eqn:Hub; [|contradiction].
  pose proof (follow_handler_toggle s followerId followedId now ub Hr Hne Hub)
    as (_ & H & _).
  assert (Hq : forall s0,
             fst (is_following_handler (Some followerId) followedId s0)
             = Status200 (0 <? follow_count s0 followerId followedId)).
  { intros s0. unfold is_following_handler, authenticated, try_catch,
      getFollowByIds, bind, read, ret. cbn.
    fold (is_follow_of followerId followedId).
    now rewrite find_existsb, existsb_count. }
  rewrite !Hq.
  destruct (0 <? follow_count s followerId followedId).
  - destruct H as [H1 H2]. exists false. rewrite H1, H2. auto.
  - destruct H as [H1 H2]. exists true. rewrite H1, H2. auto.
Qed.

Lemma X10_is_following_matches_toggle_witness :
  let r := follow_handler (Some 1) 2 300 sample_store in
  exists following,
    fst r = Status200 following /\
    fst (is_following_handler (Some 1) 2 (snd r)) = Status200 following /\
    fst (is_following_handler (Some 1) 2 sample_store) = Status200 (negb following).
Proof.
  assert (Hne : (1 : Z) <> 2) by lia.
  assert (Hex : JSMap.get (users sample_store) 2 <> None) by (vm_compute; discriminate).
  exact (X10_is_following_matches_toggle sample_store 1 2 300
           (reachable_run sample_trace) Hne Hex).
Defined.

(** X11. For two stored users, the second is in the first one's following
    list exactly when the first is in the second one's followers list. *)
Theorem X11_following_mirrors_followers s ua ub :
  In ua (JSMap.values (users s)) -> In ub (JSMap.values (users s)) ->
  (In ub (getFollowingByUserId (User.id ua) s) <->
   In ua (getFollowersByUserId (User.id ub) s)).
Proof.
  intros Ha Hb. rewrite following_iff, followers_iff. tauto.
Qed.

Lemma X11_following_mirrors_followers_witness :
  let alice' := User.mk 1 "alice" "alice@example.org" "pw-a" (Int 5) None 100 in
  let bob' := User.mk 2 "bob" "bob@example.org" "pw-b" (Int 0) None 101 in
  In alice' (getFollowingByUserId 2 sample_store) <->
  In bob' (getFollowersByUserId 1 sample_store).
Proof.
  intros alice' bob'.
  apply (X11_following_mirrors_followers sample_store bob' alice').
  - vm_compute. right. left. reflexivity.
  - vm_compute. left. reflexivity.
Defined.

(** ** Ordered listings *)

Section OrderedSort.
Context {A : Type} (compareFn : A -> A -> Z) (key idf : A -> Z).
Hypothesis compareFn_key : forall a b, compareFn a b = key b - key a.

Lemma insert_ordered_by x l :
  StronglySorted (ordered_by key idf) l ->
  Forall (fun y => idf x < idf y) l ->
  StronglySorted (ordered_by key idf) (insert compareFn x l).
Proof.
  induction l as [|y r IH]; intros Hs Hid; cbn.
  - repeat constructor.
  - inversion Hs as [|? ? Hs' Hy]; subst.
    inversion Hid as [|? ? Hxy Hid']; subst.
    rewrite compareFn_key.
    destruct (key y - key x <=? 0) eqn:E.
    + apply Z.leb_le in E. constructor; [exact Hs|].
      constructor.
      * unfold ordered_by. lia.
      * rewrite Forall_forall in *. intros z Hz.
        specialize (Hy z Hz). specialize (Hid' z Hz).
        unfold ordered_by in *. lia.
    + apply Z.leb_gt in E. constructor; [now apply IH|].
      rewrite Forall_forall in *. intros z Hz.
      apply (Permutation_in _ (insert_permutation compareFn x r)) in Hz.
      destruct Hz as [<-|Hz]; [unfold ordered_by; lia | now apply Hy].
Qed.

Lemma sort_ordered_by l :
  StronglySorted Z.lt (map idf l) ->
  StronglySorted (ordered_by key idf) (sort compareFn l).
Proof.
  induction l as [|x l IH]; intros Hs; cbn; [constructor|].
  cbn in Hs. inversion Hs as [|? ? Hs' Hx]; subst.
  fold (sort compareFn l). apply insert_ordered_by; [now apply IH|].
  apply Forall_forall. intros y Hy. apply sort_in in Hy.
  rewrite Forall_forall in Hx. apply Hx. now apply in_map.
Qed.
End OrderedSort.

Lemma ascending_filter {A} (idf : A -> Z) (p : A -> bool) l :
  StronglySorted Z.lt (map idf l) ->
  StronglySorted Z.lt (map idf (filter p l)).
Proof.
  induction l as [|x l IH]; cbn; intros Hs; [constructor|].
  inversion Hs as [|? ? Hs' Hx]; subst.
  destruct (p x); cbn; [|now apply IH].
  constructor; [now apply IH|].
  rewrite Forall_forall in *. intros y Hy. apply Hx.
  apply in_map_iff in Hy as (z & <- & Hz). apply filter_In in Hz as [Hz _].
  now apply in_map.
Qed.

Lemma StronglySorted_weaken {A} (R R' : A -> A -> Prop) l :
  (forall a b, R a b -> R' a b) ->
  StronglySorted R l -> StronglySorted R' l.
Proof.
  intros HR. induction 1 as [|x l Hs IH Hx]; constructor; [exact IH|].
  eapply Forall_impl; [|exact Hx]. auto.
Qed.

(** X12. In a reachable store the comments listed for a note are exactly
    the stored comments with that [noteId], newest first, comments with the
    same [createdAt] in ascending order of id. *)
Theorem X12_comments_of_note s noteId :
  reachable s ->
  (forall c, In c (getCommentsByNoteId noteId s) <->
             In c (JSMap.values (comments s)) /\ Comment.noteId c = noteId) /\
  StronglySorted
    (fun a b => Comment.createdAt b < Comment.createdAt a \/
                (Comment.createdAt a = Comment.createdAt b /\
                 Comment.id a < Comment.id b))
    (getCommentsByNoteId noteId s).
Proof.
  intros Hr. apply reachable_by_integrity in Hr. destruct Hr.
  unfold getCommentsByNoteId. split.
  - intros c. rewrite sort_in, filter_In, Z.eqb_eq. tauto.
  - apply (sort_ordered_by _ Comment.createdAt Comment.id); [reflexivity|].
    apply ascending_filter. eapply keyed_ids_ascending; eauto.
Qed.

(** X13. In a reachable store the replies listed for a discussion are
    exactly the stored replies with that [discussionId], oldest first,
    replies with the same [createdAt] in ascending order of id. *)
Theorem X13_replies_of_discussion s discussionId :
  reachable s ->
  (forall r, In r (getDiscussionRepliesByDiscussionId discussionId s) <->
             In r (JSMap.values (discussionReplies s)) /\
             DiscussionReply.discussionId r = discussionId) /\
  StronglySorted
    (fun a b => DiscussionReply.createdAt a < DiscussionReply.createdAt b \/
                (DiscussionReply.createdAt a = DiscussionReply.createdAt b /\
                 DiscussionReply.id a < DiscussionReply.id b))
    (getDiscussionRepliesByDiscussionId discussionId s).
Proof.
  intros Hr. apply reachable_by_integrity in Hr. destruct Hr.
  unfold getDiscussionRepliesByDiscussionId. split.
  - intros r. rewrite sort_in, filter_In, Z.eqb_eq. tauto.
  - apply StronglySorted_weaken
      with (R := ordered_by (fun r => - DiscussionReply.createdAt r) DiscussionReply.id).
    + unfold ordered_by. intros a b. lia.
    + apply sort_ordered_by; [intros a b; lia|].
      apply ascending_filter. eapply keyed_ids_ascending; eauto.
Qed.

(** X14. In a reachable store and for a limit that is not negative, the
    trending notes are the first [limit] notes of the stored notes ordered
    by descending [downloads + likes], notes with the same sum in ascending
    order of id. *)
Theorem X14_trending_order s limit :
  reachable s -> 0 <= limit ->
  exists ordered,
    Permutation ordered (JSMap.values (notes s)) /\
    StronglySorted
      (ordered_by (fun n => Note.downloads n + Note.likes n) Note.id) ordered /\
    getTrendingNotes limit s = firstn (Z.to_nat limit) ordered.
Proof.
  intros Hr Hl. apply reachable_by_consistent in Hr. destruct Hr.
  eexists. split; [apply sort_permutation|]. split.
  - apply sort_ordered_by; [reflexivity|]. eapply keyed_ids_ascending; eauto.
  - unfold getTrendingNotes. now apply slice_firstn.
Qed.

Lemma X12_comments_of_note_witness :
  StronglySorted
    (fun a b => Comment.createdAt b < Comment.createdAt a \/
                (Comment.createdAt a = Comment.createdAt b /\
                 Comment.id a < Comment.id b))
    (getCommentsByNoteId 1 community_store).
Proof.
  exact (proj2 (X12_comments_of_note community_store 1
                  (reachable_run community_trace))).
Defined.

Lemma X13_replies_of_discussion_witness :
  StronglySorted
    (fun a b => DiscussionReply.createdAt a < DiscussionReply.createdAt b \/
                (DiscussionReply.createdAt a = DiscussionReply.createdAt b /\
                 DiscussionReply.id a < DiscussionReply.id b))
    (getDiscussionRepliesByDiscussionId 1 community_store).
Proof.
  exact (proj2 (X13_replies_of_discussion community_store 1
                  (reachable_run community_trace))).
Defined.

Lemma X14_trending_order_witness :
  exists ordered,
    Permutation ordered (JSMap.values (notes community_store)) /\
    StronglySorted
      (ordered_by (fun n => Note.downloads n + Note.likes n) Note.id) ordered /\
    getTrendingNotes 2 community_store = firstn 2 ordered.
Proof.
  assert (H0 : 0 <= 2) by lia.
  exact (X14_trending_order community_store 2 (reachable_run community_trace) H0).
Defined.

(** ** Slices and pages *)

Lemma firstn_add_skipn {A} (a b : nat) (l : list A) :
  firstn (a + b) l = firstn a l ++ firstn b (skipn a l).
Proof.
  revert l. induction a as [|a IH]; intros l; cbn; [reflexivity|].
  destruct l as [|x l]; cbn.
  - now rewrite firstn_nil.
  - now rewrite IH.
Qed.

Lemma firstn_min_length {A} (n : nat) (l : list A) :
  firstn (Nat.min n (List.length l)) l = firstn n l.
Proof.
  destruct (Nat.le_gt_cases n (List.length l)) as [H|H].
  - now rewrite Nat.min_l.
  - rewrite Nat.min_r by lia. rewrite firstn_all. symmetry.
    apply firstn_all2. lia.
Qed.

(* A slice between two indices that are not negative. *)
Lemma slice_window {A} (a w : Z) (l : list A) :
  0 <= a -> 0 <= w ->
  slice a (a + w) l = firstn (Z.to_nat w) (skipn (Z.to_nat a) l).
Proof.
  intros Ha Hw. unfold slice.
  assert (E1 : (a <? 0) = false) by (apply Z.ltb_ge; lia).
  assert (E2 : (a + w <? 0) = false) by (apply Z.ltb_ge; lia).
  rewrite E1, E2.
  destruct (Z.le_gt_cases a (Z.of_nat (List.length l))) as [Hle|Hgt].
  - rewrite (Z.min_l a) by lia.
    rewrite <- (firstn_min_length (Z.to_nat w)). rewrite length_skipn.
    f_equal. lia.
  - rewrite (Z.min_r a) by lia. rewrite (Z.min_r (a + w)) by lia.
    rewrite Z.sub_diag. cbn [Z.to_nat firstn].
    rewrite (skipn_all2 l) by lia. now rewrite firstn_nil.
Qed.

Lemma getAllNotes_page s p limit :
  0 <= limit -> (1 <= p)%nat ->
  getAllNotes (Z.of_nat p) limit s
  = firstn (Z.to_nat limit)
      (skipn ((p - 1) * Z.to_nat limit)
             (sort newest_first (JSMap.values (notes s)))).
Proof.
  intros Hl Hp. unfold getAllNotes. cbv zeta.
  change (fun a b => Note.createdAt b - Note.createdAt a) with newest_first.
  rewrite slice_window by nia. do 2 f_equal. nia.
Qed.

(** X15. In a reachable store and for a page size that is not negative,
    pages 1 to n of the note listing, one after the other, are the first
    n times the page size notes of the stored notes ordered by descending
    [createdAt] (notes with the same [createdAt] in ascending order of id):
    the pages neither skip nor repeat a note. *)
Theorem X15_pages_cover_listing s limit :
  reachable s -> 0 <= limit ->
  exists ordered,
    Permutation ordered (JSMap.values (notes s)) /\
    StronglySorted recent_order ordered /\
    forall n, first_pages n limit s = firstn (n * Z.to_nat limit) ordered.
Proof.
  intros Hr Hl. apply reachable_by_consistent in Hr. destruct Hr.
  exists (sort newest_first (JSMap.values (notes s))).
  split; [apply sort_permutation|]. split.
  - apply sort_recent_order. eapply keyed_ids_ascending; eauto.
  - induction n as [|n IH]; [reflexivity|].
    unfold first_pages in *. rewrite seq_S, map_app, concat_app, IH. cbn [map List.concat].
    rewrite app_nil_r. rewrite getAllNotes_page by lia.
    replace (S n * Z.to_nat limit)%nat with (n * Z.to_nat limit + Z.to_nat limit)%nat by lia.
    rewrite firstn_add_skipn. do 3 f_equal. lia.
Qed.

Lemma X15_pages_cover_listing_witness :
  exists ordered,
    Permutation ordered (JSMap.values (notes community_store)) /\
    StronglySorted recent_order ordered /\
    forall n, first_pages n 2 community_store = firstn (n * 2) ordered.
Proof.
  assert (H0 : 0 <= 2) by lia.
  exact (X15_pages_cover_listing community_store 2
           (reachable_run community_trace) H0).
Defined.

Lemma slice_from_start_length {A} (limit : Z) (l : list A) :
  Z.of_nat (List.length (slice 0 limit l))
  = if limit <? 0 then Z.max (Z.of_nat (List.length l) + limit) 0
    else Z.min limit (Z.of_nat (List.length l)).
Proof.
  unfold slice. cbn [Z.ltb Z.compare]. rewrite (Z.min_l 0) by lia.
  cbn [Z.to_nat skipn]. rewrite length_firstn.
  destruct (limit <? 0) eqn:E; [apply Z.ltb_lt in E | apply Z.ltb_ge in E]; lia.
Qed.

(** X16. The number of notes the recent listing returns: for a limit that
    is not negative, the smaller of the limit and the number of stored
    notes; for a negative limit, the number of stored notes less the
    limit's size (never below zero), since the limit then cuts from the
    end. *)
Theorem X16_recent_length s limit :
  Z.of_nat (List.length (getRecentNotes limit s))
  = if limit <? 0
    then Z.max (Z.of_nat (List.length (JSMap.values (notes s))) + limit) 0
    else Z.min limit (Z.of_nat (List.length (JSMap.values (notes s)))).
Proof.
  unfold getRecentNotes. rewrite slice_from_start_length.
  now rewrite (Permutation_length (sort_permutation _ _)).
Qed.

(** ** What the operations keep *)

Lemma kept_set {V} (R : V -> V -> Prop) (m : JSMap.t V) k v j x :
  (forall a b c, R a b -> R b c -> R a c) ->
  (exists v0, JSMap.get m k = Some v0 /\ R v v0) ->
  (forall v0, JSMap.get m j = Some v0 -> R v0 x) ->
  exists v', JSMap.get (JSMap.set m j x) k = Some v' /\ R v v'.
Proof.
  intros Htrans (v0 & Hg & Hr) Hj. destruct (Z.eq_dec j k) as [->|Hne].
  - exists x. rewrite get_set_eq. split; [reflexivity|]. eauto.
  - exists v0. now rewrite get_set_neq.
Qed.

Lemma note_kept_trans a b c : note_kept a b -> note_kept b c -> note_kept a c.
Proof.
  unfold note_kept, same_note. intros [E1 L1] [E2 L2]. split; [congruence | lia].
Qed.

Lemma same_user_trans a b c : same_user a b -> same_user b c -> same_user a c.
Proof. unfold same_user. congruence. Qed.

Lemma discussion_kept_trans a b c :
  discussion_kept a b -> discussion_kept b c -> discussion_kept a c.
Proof.
  unfold discussion_kept, same_discussion. intros [E1 L1] [E2 L2].
  split; [congruence | lia].
Qed.

Ltac kept_value H :=
  let v0 := fresh "v0" in
  let Hv0 := fresh "Hv0" in
  intros v0 Hv0;
  first [ congruence
        | rewrite H in Hv0; injection Hv0 as <-;
          first [ reflexivity | split; [reflexivity | cbn; lia] ] ].

Ltac kept_goal trans :=
  first
    [ eassumption
    | apply (kept_set _ _ _ _ _ _ trans); [eassumption|];
      match goal with
      | H : JSMap.get ?m ?j = _ |- forall v0, JSMap.get ?m ?j = Some v0 -> _ =>
          kept_value H
      end
    | apply (kept_set _ _ _ _ _ _ trans);
      [ apply (kept_set _ _ _ _ _ _ trans); [eassumption|];
        match goal with
        | H : JSMap.get ?m ?j = _ |- forall v0, JSMap.get ?m ?j = Some v0 -> _ =>
            kept_value H
        end
      | match goal with
        | H : JSMap.get ?m ?j = _ |- forall v0, JSMap.get ?m ?j = Some v0 -> _ =>
            kept_value H
        end ] ].

Lemma exec_keeps_note s op now k n :
  consistent s ->
  (exists n0, JSMap.get (notes s) k = Some n0 /\ note_kept n n0) ->
  exists n', JSMap.get (notes (exec op now s)) k = Some n' /\ note_kept n n'.
Proof.
  intros Hc Hn.
  assert (Hfresh : JSMap.get (notes s) (currentNoteId s) = None)
    by (destruct Hc; eapply keyed_get_fresh; eauto; lia).
  destruct op; cbn [exec]; unfold_storage; unfold_storage; handler_cases; cbn;
    kept_goal note_kept_trans.
Qed.

Lemma exec_keeps_user s op now k u :
  consistent s ->
  (exists u0, JSMap.get (users s) k = Some u0 /\ same_user u u0) ->
  exists u', JSMap.get (users (exec op now s)) k = Some u' /\ same_user u u'.
Proof.
  intros Hc Hu.
  assert (Hfresh : JSMap.get (users s) (currentUserId s) = None)
    by (destruct Hc; eapply keyed_get_fresh; eauto; lia).
  destruct op; cbn [exec]; unfold_storage; unfold_storage; handler_cases; cbn;
    kept_goal same_user_trans.
Qed.

Lemma exec_keeps_discussion s op now k d :
  integrity s ->
  (exists d0, JSMap.get (discussions s) k = Some d0 /\ discussion_kept d d0) ->
  exists d', JSMap.get (discussions (exec op now s)) k = Some d' /\
             discussion_kept d d'.
Proof.
  intros Hc Hd.
  assert (Hfresh : JSMap.get (discussions s) (currentDiscussionId s) = None)
    by (destruct Hc; eapply keyed_get_fresh; eauto; lia).
  destruct op; cbn [exec]; unfold_storage; unfold_storage; handler_cases; cbn;
    kept_goal discussion_kept_trans.
Qed.

Lemma consistent_run trace : forall s, consistent s -> consistent (run trace s).
Proof.
  induction trace as [|[op now] rest IH]; intros s H; cbn; [exact H|].
  apply IH. now apply consistent_exec.
Qed.

Lemma integrity_run trace : forall s, integrity s -> integrity (run trace s).
Proof.
  induction trace as [|[op now] rest IH]; intros s H; cbn; [exact H|].
  apply IH. now apply integrity_exec.
Qed.

(** X17. From a reachable store, whatever operations follow, a stored note
    stays stored under its id with every field but the two counters
    unchanged, and its [downloads] never decreases. *)
Theorem X17_notes_are_kept s trace k n :
  reachable s -> JSMap.get (notes s) k = Some n ->
  exists n', JSMap.get (notes (run trace s)) k = Some n' /\
             same_note n n' /\ Note.downloads n <= Note.downloads n'.
Proof.
  intros Hr Hn. apply reachable_by_consistent in Hr.
  assert (H : exists n0, JSMap.get (notes s) k = Some n0 /\ note_kept n n0)
    by (exists n; split; [exact Hn | split; [reflexivity | lia]]).
  clear Hn. revert s Hr H.
  induction trace as [|[op now] rest IH]; intros s Hr H; cbn.
  - exact H.
  - apply IH; [now apply consistent_exec | now apply exec_keeps_note].
Qed.

Lemma X17_notes_are_kept_witness :
  exists n', JSMap.get (notes (run community_trace sample_store)) 1 = Some n' /\
             same_note (Note.with_likes
                          (Note.with_downloads
                             (Note.of_insert (sample_note 1 false (Num 0)) 1 102) 1) 1) n' /\
             1 <= Note.downloads n'.
Proof.
  exact (X17_notes_are_kept sample_store community_trace 1 _
           (reachable_run sample_trace) eq_refl).
Defined.

(** X18. From a reachable store, whatever operations follow, a stored user
    stays stored under its id with the same username, email, password,
    avatar and creation time: only the balance can change. *)
Theorem X18_users_are_kept s trace k u :
  reachable s -> JSMap.get (users s) k = Some u ->
  exists u', JSMap.get (users (run trace s)) k = Some u' /\ same_user u u'.
Proof.
  intros Hr Hu. apply reachable_by_consistent in Hr.
  assert (H : exists u0, JSMap.get (users s) k = Some u0 /\ same_user u u0)
    by (exists u; split; [exact Hu | reflexivity]).
  clear Hu. revert s Hr H.
  induction trace as [|[op now] rest IH]; intros s Hr H; cbn.
  - exact H.
  - apply IH; [now apply consistent_exec | now apply exec_keeps_user].
Qed.

Lemma X18_users_are_kept_witness :
  exists u', JSMap.get (users (run community_trace sample_store)) 2 = Some u' /\
             same_user (User.mk 2 "bob" "bob@example.org" "pw-b" (Int 0) None 101) u'.
Proof.
  exact (X18_users_are_kept sample_store community_trace 2 _
           (reachable_run sample_trace) eq_refl).
Defined.

(** X19. Comment, like, follow, discussion, view and reply requests leave
    every user record, and so every balance, as it was. *)
Theorem X19_coin_free_operations s op now :
  coin_free op -> users (exec op now s) = users s.
Proof.
  destruct op; cbn [coin_free]; intros H; try contradiction;
    cbn [exec]; unfold_storage; unfold_storage; handler_cases; reflexivity.
Qed.

Lemma X19_coin_free_operations_witness :
  users (exec (OpLike 1 1) 300 sample_store) = users sample_store.
Proof.
  exact (X19_coin_free_operations sample_store (OpLike 1 1) 300 I).
Defined.

(** X20. A view request for a stored discussion answers with the record as
    it was before the request, so with the old [views], and stores the
    record with [views] one higher; the other discussions are untouched. *)
Theorem X20_view_discussion s id d :
  JSMap.get (discussions s) id = Some d ->
  let r := discussion_handler id s in
  fst r = Status200 d /\
  JSMap.get (discussions (snd r)) id
  = Some (Discussion.with_views d (Discussion.views d + 1)) /\
  (forall k, k <> id ->
             JSMap.get (discussions (snd r)) k = JSMap.get (discussions s) k).
Proof.
  intros Hd r. subst r. unfold_storage. cbn. rewrite Hd. cbn. rewrite Hd. cbn.
  split; [reflexivity|]. split; [apply get_set_eq|].
  intros k Hk. now rewrite get_set_neq by congruence.
Qed.

Lemma X20_view_discussion_witness :
  let d := Discussion.mk 1 1 "Exam" "Which chapters?" "academic" 0 1 false 120 120 in
  fst (discussion_handler 1 community_store) = Status200 d /\
  JSMap.get (discussions (snd (discussion_handler 1 community_store))) 1
  = Some (Discussion.with_views d 2).
Proof.
  destruct (X20_view_discussion community_store 1
              (Discussion.mk 1 1 "Exam" "Which chapters?" "academic" 0 1 false 120 120)
              eq_refl) as (H1 & H2 & _).
  exact (conj H1 H2).
Defined.

(** X21. From a reachable store, whatever operations follow, a stored
    discussion stays stored under its id with every field but [views]
    unchanged, and its [views] never decreases. *)
Theorem X21_discussions_are_kept s trace k d :
  reachable s -> JSMap.get (discussions s) k = Some d ->
  exists d', JSMap.get (discussions (run trace s)) k = Some d' /\
             same_discussion d d' /\ Discussion.views d <= Discussion.views d'.
Proof.
  intros Hr Hd. apply reachable_by_integrity in Hr.
  assert (H : exists d0, JSMap.get (discussions s) k = Some d0 /\ discussion_kept d d0)
    by (exists d; split; [exact Hd | split; [reflexivity | lia]]).
  clear Hd. revert s Hr H.
  induction trace as [|[op now] rest IH]; intros s Hr H; cbn.
  - exact H.
  - apply IH; [now apply integrity_exec | now apply exec_keeps_discussion].
Qed.

Lemma X21_discussions_are_kept_witness :
  exists d', JSMap.get (discussions (run sample_trace community_store)) 1 = Some d' /\
             same_discussion
               (Discussion.mk 1 1 "Exam" "Which chapters?" "academic" 0 1 false 120 120) d' /\
             1 <= Discussion.views d'.
Proof.
  exact (X21_discussions_are_kept community_store sample_trace 1 _
           (reachable_run community_trace) eq_refl).
Defined.

(** ** Top contributors *)

Lemma tally_uploads (l : list Note.t) : forall (m : JSMap.t Z) k,
  or_zero (JSMap.get
             (fold_left (fun m note =>
                           let count := or_zero (JSMap.get m (Note.userId note)) in
                           JSMap.set m (Note.userId note) (count + 1)) l m) k)
  = or_zero (JSMap.get m k) + count (fun note => Note.userId note =? k) l.
Proof.
  induction l as [|n l IH]; intros m k; cbn [fold_left].
  - rewrite count_nil. lia.
  - rewrite IH, count_cons. cbv zeta.
    destruct (Z.eq_dec (Note.userId n) k) as [E|E].
    + rewrite E, get_set_eq, Z.eqb_refl. cbn [or_zero]. lia.
    + rewrite get_set_neq by assumption. apply Z.eqb_neq in E. rewrite E. lia.
Qed.

Lemma userUploads_count s u :
  or_zero (JSMap.get (userUploads s) (User.id u)) = uploads_of s u.
Proof.
  unfold userUploads, uploads_of. rewrite tally_uploads. reflexivity.
Qed.

Section SortPairs.
Context {A : Type} (g : A -> Z).

Lemma insert_with_key x l :
  insert (fun a b : A * Z => snd b - snd a) (x, g x) (map (fun u => (u, g u)) l)
  = map (fun u => (u, g u)) (insert (fun a b => g b - g a) x l).
Proof.
  induction l as [|y r IH]; cbn; [reflexivity|].
  destruct (g y - g x <=? 0); cbn; [reflexivity|]. now rewrite IH.
Qed.

Lemma sort_with_key l :
  sort (fun a b : A * Z => snd b - snd a) (map (fun u => (u, g u)) l)
  = map (fun u => (u, g u)) (sort (fun a b => g b - g a) l).
Proof.
  induction l as [|x l IH]; cbn; [reflexivity|].
  fold (sort (fun a b : A * Z => snd b - snd a) (map (fun u => (u, g u)) l)).
  fold (sort (fun a b => g b - g a) l).
  now rewrite IH, insert_with_key.
Qed.
End SortPairs.

Lemma slice_map {A B} (f : A -> B) a b (l : list A) :
  slice a b (map f l) = map f (slice a b l).
Proof.
  unfold slice. now rewrite length_map, skipn_map, firstn_map.
Qed.

(** X22. In a reachable store and for a limit that is not negative, the top
    contributors are the first [limit] stored users ordered by descending
    number of notes they own, users with the same number in ascending
    order of id. *)
Theorem X22_top_contributors s limit :
  reachable s -> 0 <= limit ->
  exists ranked,
    Permutation ranked (JSMap.values (users s)) /\
    StronglySorted (ordered_by (uploads_of s) User.id) ranked /\
    getTopContributors limit s = firstn (Z.to_nat limit) ranked.
Proof.
  intros Hr Hl. apply reachable_by_consistent in Hr. destruct Hr.
  exists (sort (fun a b => uploads_of s b - uploads_of s a) (JSMap.values (users s))).
  split; [apply sort_permutation|]. split.
  - apply sort_ordered_by; [reflexivity|]. eapply keyed_ids_ascending; eauto.
  - unfold getTopContributors.
    rewrite (map_ext _ (fun u => (u, uploads_of s u)))
      by (intros u; now rewrite userUploads_count).
    rewrite sort_with_key, slice_map, map_map. cbn [fst].
    rewrite map_id. now apply slice_firstn.
Qed.

Lemma X22_top_contributors_witness :
  exists ranked,
    Permutation ranked (JSMap.values (users community_store)) /\
    StronglySorted (ordered_by (uploads_of community_store) User.id) ranked /\
    getTopContributors 1 community_store = firstn 1 ranked.
Proof.
  assert (H0 : 0 <= 1) by lia.
  exact (X22_top_contributors community_store 1 (reachable_run community_trace) H0).
Defined.

(** ** Categories *)

Section StrMapFacts.
Context {V : Type}.
Implicit Types (m : StrMap.t V) (k : string) (v : V).

Lemma str_get_set_eq m k v : StrMap.get (StrMap.set m k v) k = Some v.
Proof.
  induction m as [|[k' v'] r IH]; cbn.
  - now rewrite String.eqb_refl.
  - destruct (k' =? k)%string eqn:E; cbn.
    + now rewrite String.eqb_refl.
    + now rewrite E.
Qed.

Lemma str_get_set_neq m k k' v :
  k <> k' -> StrMap.get (StrMap.set m k v) k' = StrMap.get m k'.
Proof.
  intros Hne. apply String.eqb_neq in Hne.
  induction m as [|[k0 v0] r IH]; cbn.
  - now rewrite Hne.
  - destruct (k0 =? k)%string eqn:E; cbn.
    + apply String.eqb_eq in E; subst k0. now rewrite Hne.
    + destruct (k0 =? k')%string; [reflexivity | exact IH].
Qed.

Lemma str_set_keys m k v :
  forall x, In x (map fst (StrMap.set m k v)) <-> x = k \/ In x (map fst m).
Proof.
  induction m as [|[k' v'] r IH]; cbn; intros x.
  - intuition.
  - destruct (k' =? k)%string eqn:E; cbn.
    + apply String.eqb_eq in E; subst k'. intuition.
    + rewrite IH. intuition.
Qed.

Lemma str_set_nodup m k v :
  NoDup (map fst m) -> NoDup (map fst (StrMap.set m k v)).
Proof.
  induction m as [|[k' v'] r IH]; cbn; intros Hnd.
  - constructor; [tauto | constructor].
  - inversion Hnd as [|? ? Hnin Hnd']; subst.
    destruct (k' =? k)%string eqn:E; cbn.
    + apply String.eqb_eq in E; subst k'. now constructor.
    + constructor; [|auto]. rewrite str_set_keys. intros [->|H]; [|tauto].
      rewrite String.eqb_refl in E. discriminate.
Qed.

Lemma str_in_get m k v :
  NoDup (map fst m) -> In (k, v) m -> StrMap.get m k = Some v.
Proof.
  induction m as [|[k' v'] r IH]; cbn; intros Hnd Hin; [tauto|].
  inversion Hnd as [|? ? Hnin Hnd']; subst.
  destruct Hin as [[= -> ->]|Hin].
  - now rewrite String.eqb_refl.
  - destruct (k' =? k)%string eqn:E; [|auto].
    apply String.eqb_eq in E; subst k'. exfalso. apply Hnin.
    change k with (fst (k, v)). now apply in_map.
Qed.

Lemma str_get_in m k v : StrMap.get m k = Some v -> In (k, v) m.
Proof.
  induction m as [|[k' v'] r IH]; cbn; [discriminate|].
  destruct (k' =? k)%string eqn:E.
  - apply String.eqb_eq in E; subst. intros [= ->]. now left.
  - intros H; right; auto.
Qed.
End StrMapFacts.

Lemma tally_categories (l : list Note.t) : forall (m : StrMap.t Z) k,
  let m' := fold_left (fun m note =>
                         let count := or_zero (StrMap.get m (Note.category note)) in
                         StrMap.set m (Note.category note) (count + 1)) l m in
  or_zero (StrMap.get m' k)
  = or_zero (StrMap.get m k)
    + count (fun note => (Note.category note =? k)%string) l /\
  (NoDup (map fst m) -> NoDup (map fst m')) /\
  (In k (map fst m') ->
   In k (map fst m) \/ exists note, In note l /\ Note.category note = k).
Proof.
  induction l as [|n l IH]; intros m k; cbn [fold_left].
  - rewrite count_nil. split; [lia | auto].
  - cbv zeta in *.
    destruct (IH (StrMap.set m (Note.category n)
                    (or_zero (StrMap.get m (Note.category n)) + 1)) k)
      as (H1 & H2 & H3).
    split; [|split].
    + rewrite H1, count_cons.
      destruct (String.eqb_spec (Note.category n) k) as [E|E].
      * rewrite E, str_get_set_eq. cbn [or_zero]. lia.
      * rewrite str_get_set_neq by assumption. lia.
    + intros Hnd. apply H2. now apply str_set_nodup.
    + intros Hk. destruct (H3 Hk) as [Hs|(note & Hin & E)].
      * apply str_set_keys in Hs as [->|Hs]; [|now left].
        right. exists n. split; [now left | reflexivity].
      * right. exists note. split; [now right | exact E].
Qed.

(** X23. The category listing names every category of a stored note
    exactly once, and the count next to a name is the number of stored
    notes whose category is that very string, at least one. *)
Theorem X23_categories s :
  let cs := getCategories s in
  NoDup (map CategoryCount.name cs) /\
  (forall c, In c cs ->
             CategoryCount.count c
             = count (fun note => (Note.category note =? CategoryCount.name c)%string)
                     (JSMap.values (notes s)) /\
             1 <= CategoryCount.count c) /\
  (forall note, In note (JSMap.values (notes s)) ->
                exists c, In c cs /\ CategoryCount.name c = Note.category note).
Proof.
  cbv zeta. unfold getCategories, categories_of.
  set (l := JSMap.values (notes s)).
  match goal with |- context [fold_left ?f l []] => set (m := fold_left f l []) end.
  assert (Hnd : NoDup (map fst m))
    by (apply (tally_categories l [] ""%string); constructor).
  assert (Hcount : forall k, or_zero (StrMap.get m k)
                             = count (fun note => (Note.category note =? k)%string) l).
  { intros k. pose proof (proj1 (tally_categories l [] k)) as H.
    cbv zeta in H. cbn [StrMap.get or_zero] in H. rewrite Z.add_0_l in H. exact H. }
  assert (Hin : forall note, In note l ->
                             1 <= or_zero (StrMap.get m (Note.category note))).
  { intros note H. rewrite Hcount. apply in_split in H as (l1 & l2 & ->).
    rewrite count_app, count_cons, String.eqb_refl.
    pose proof (count_nonneg (fun n => (Note.category n =? Note.category note)%string) l1).
    pose proof (count_nonneg (fun n => (Note.category n =? Note.category note)%string) l2).
    lia. }
  split; [|split].
  - rewrite map_map. cbn. exact Hnd.
  - intros c Hc. apply in_map_iff in Hc as ([k v] & <- & He). cbn.
    pose proof (str_in_get _ _ _ Hnd He) as Hg.
    pose proof (Hcount k) as Hk. rewrite Hg in Hk. cbn in Hk.
    split; [exact Hk|].
    assert (Hkey : In k (map fst m))
      by (change k with (fst (k, v)); now apply in_map).
    apply (proj2 (proj2 (tally_categories l [] k))) in Hkey as [[]|(note & Hn & E)].
    specialize (Hin note Hn). rewrite E, Hg in Hin. exact Hin.
  - intros note Hn. specialize (Hin note Hn).
    destruct (StrMap.get m (Note.category note)) as [v|] eqn:Hg; [|cbn in Hin; lia].
    exists (CategoryCount.mk (Note.category note) v). split; [|reflexivity].
    apply in_map_iff. exists (Note.category note, v).
    split; [reflexivity | now apply str_get_in].
Qed.

Lemma X23_categories_witness :
  NoDup (map CategoryCount.name (getCategories community_store)).
Proof.
  exact (proj1 (X23_categories community_store)).
Defined.

(** ** The figures of a user *)

Lemma new_Set_acc (l : list Z) : forall acc,
  let r := fold_left (fun acc x => if includes acc x then acc else acc ++ [x]) l acc in
  (NoDup acc -> NoDup r) /\ (forall x, In x r <-> In x acc \/ In x l).
Proof.
  induction l as [|y l IH]; intros acc; cbn [fold_left].
  - split; [auto | intros x; cbn; tauto].
  - cbv zeta in *. destruct (includes acc y) eqn:E.
    + destruct (IH acc) as [H1 H2]. split; [exact H1|].
      intros x. rewrite H2. apply includes_In in E. cbn. intuition (subst; auto).
    + destruct (IH (acc ++ [y])) as [H1 H2]. split.
      * intros Hnd. apply H1. apply NoDup_app; [exact Hnd | repeat constructor; tauto |].
        intros x Hx [<-|[]]. apply includes_In in Hx. congruence.
      * intros x. rewrite H2, in_app_iff. cbn. tauto.
Qed.

(** X24. The figures answered for a stored user leave the store unchanged
    and carry the user's balance, the number of stored notes the user
    owns, and as [downloads] the number of different notes among the
    user's Download records, however often each was downloaded. *)
Theorem X24_user_stats s userId u :
  JSMap.get (users s) userId = Some u ->
  exists st noteIds,
    stats_handler (Some userId) s = (Status200 st, s) /\
    UserStats.coins st = User.coins u /\
    UserStats.uploads st
    = count (fun note => Note.userId note =? userId) (JSMap.values (notes s)) /\
    NoDup noteIds /\
    (forall k, In k noteIds <->
               exists d, In d (JSMap.values (downloads s)) /\
                         Download.userId d = userId /\ Download.noteId d = k) /\
    UserStats.downloads st = Z.of_nat (List.length noteIds).
Proof.
  intros Hu. unfold stats_handler, authenticated, try_catch, getUser, bind, read, ret.
  rewrite Hu. cbn [fst snd].
  eexists. exists (new_Set (map Download.noteId (getDownloadsByUserId userId s))).
  split; [reflexivity|]. cbn [UserStats.coins UserStats.uploads UserStats.downloads].
  split; [reflexivity|]. split; [reflexivity|].
  destruct (new_Set_acc (map Download.noteId (getDownloadsByUserId userId s)) [])
    as [Hnd Hin].
  split; [apply Hnd; constructor|]. split; [|reflexivity].
  intros k. unfold new_Set. rewrite Hin. cbn [In]. rewrite in_map_iff.
  unfold getDownloadsByUserId. split.
  - intros [[]|(d & E & Hd)]. apply sort_in in Hd. apply filter_In in Hd as [Hd Hu'].
    apply Z.eqb_eq in Hu'. eauto.
  - intros (d & Hd & Hu' & E). right. exists d. split; [exact E|].
    apply sort_in. apply filter_In. split; [exact Hd | now apply Z.eqb_eq].
Qed.

Lemma X24_user_stats_witness :
  exists st noteIds,
    stats_handler (Some 2) community_store = (Status200 st, community_store) /\
    UserStats.coins st = Int 1 /\
    UserStats.uploads st
    = count (fun note => Note.userId note =? 2) (JSMap.values (notes community_store)) /\
    NoDup noteIds /\
    (forall k, In k noteIds <->
               exists d, In d (JSMap.values (downloads community_store)) /\
                         Download.userId d = 2 /\ Download.noteId d = k) /\
    UserStats.downloads st = Z.of_nat (List.length noteIds).
Proof.
  exact (X24_user_stats community_store 2
           (User.mk 2 "bob" "bob@example.org" "pw-b" (Int 1) None 101) eq_refl).
Defined.

(** ** Registration in the store *)

(** X25. In a reachable store [createUser] stores the new user under an id
    no stored user has, with a balance of 0, and leaves every stored user
    as it is; it compares neither username nor email with the stored
    users, so creating the same user again stores a second record with the
    same username and email under the next id. *)
Theorem X25_createUser s insertUser now now' :
  reachable s ->
  let r := createUser insertUser now s in
  let r' := createUser insertUser now' (snd r) in
  exists u u',
    fst r = Returned u /\ fst r' = Returned u' /\
    User.id u = currentUserId s /\ User.id u' = currentUserId s + 1 /\
    User.coins u = Int 0 /\
    User.username u' = User.username u /\ User.email u' = User.email u /\
    JSMap.get (users s) (User.id u) = None /\
    JSMap.get (users (snd r')) (User.id u) = Some u /\
    JSMap.get (users (snd r')) (User.id u') = Some u' /\
    (forall k v, JSMap.get (users s) k = Some v ->
                 JSMap.get (users (snd r')) k = Some v).
Proof.
  intros Hr r r'. subst r r'. apply reachable_by_consistent in Hr.
  assert (Hfresh : forall k, currentUserId s <= k -> JSMap.get (users s) k = None)
    by (intros k Hk; destruct Hr; eapply keyed_get_fresh; eauto).
  unfold_storage. cbn. do 2 eexists.
  split; [reflexivity|]. split; [reflexivity|]. cbn.
  repeat (split; [reflexivity|]).
  split; [apply Hfresh; lia|]. split; [|split].
  - rewrite get_set_neq by lia. apply get_set_eq.
  - apply get_set_eq.
  - intros k v Hk.
    assert (k < currentUserId s).
    { destruct (Z.lt_ge_cases k (currentUserId s)) as [H|H]; [exact H|].
      rewrite Hfresh in Hk by lia. discriminate. }
    rewrite !get_set_neq by lia. exact Hk.
Qed.

Lemma X25_createUser_witness :
  let r := createUser alice 300 sample_store in
  let r' := createUser alice 301 (snd r) in
  exists u u',
    fst r = Returned u /\ fst r' = Returned u' /\
    User.id u = 3 /\ User.id u' = 3 + 1 /\
    User.coins u = Int 0 /\
    User.username u' = User.username u /\ User.email u' = User.email u /\
    JSMap.get (users sample_store) (User.id u) = None /\
    JSMap.get (users (snd r')) (User.id u) = Some u /\
    JSMap.get (users (snd r')) (User.id u') = Some u' /\
    (forall k v, JSMap.get (users sample_store) k = Some v ->
                 JSMap.get (users (snd r')) k = Some v).
Proof.
  exact (X25_createUser sample_store alice 300 301 (reachable_run sample_trace)).
Defined.

(** ** The library of a user *)

(** X26. In a reachable store the downloads and the likes listed for a user
    are exactly the stored Download and Like records of that user, each
    list newest first, records with the same [createdAt] in ascending
    order of id. *)
Theorem X26_user_library s userId :
  reachable s ->
  (forall d, In d (getUserDownloads userId s) <->
             In d (JSMap.values (downloads s)) /\ Download.userId d = userId) /\
  StronglySorted (ordered_by Download.createdAt Download.id)
                 (getUserDownloads userId s) /\
  (forall l, In l (getUserLikes userId s) <->
             In l (JSMap.values (likes s)) /\ Like.userId l = userId) /\
  StronglySorted (ordered_by Like.createdAt Like.id) (getUserLikes userId s).
Proof.
  intros Hr. apply reachable_by_consistent in Hr. destruct Hr.
  unfold getUserDownloads, getDownloadsByUserId, getUserLikes.
  split; [|split; [|split]].
  - intros d. rewrite sort_in, filter_In, Z.eqb_eq. tauto.
  - apply sort_ordered_by; [reflexivity|].
    apply ascending_filter. eapply keyed_ids_ascending; eauto.
  - intros l. rewrite sort_in, filter_In, Z.eqb_eq. tauto.
  - apply sort_ordered_by; [reflexivity|].
    apply ascending_filter. eapply keyed_ids_ascending; eauto.
Qed.

Lemma X26_user_library_witness :
  StronglySorted (ordered_by Download.createdAt Download.id)
                 (getUserDownloads 2 community_store).
Proof.
  exact (proj1 (proj2 (X26_user_library community_store 2
                         (reachable_run community_trace)))).
Defined.

(** ** Comments *)

(** X27. In a reachable store a comment on a stored note is answered 201
    with a comment that carries the next comment id; the note's comment
    list then contains it and is one longer, and the comment list of every
    other note is unchanged. *)
Theorem X27_comment_is_listed s userId noteId content now n :
  reachable s -> JSMap.get (notes s) noteId = Some n ->
  let r := comment_handler (Some userId) noteId content now s in
  let c := Comment.mk (currentCommentId s) noteId userId content now in
  fst r = Status201 c /\
  In c (getCommentsByNoteId noteId (snd r)) /\
  List.length (getCommentsByNoteId noteId (snd r))
  = S (List.length (getCommentsByNoteId noteId s)) /\
  (forall k, k <> noteId ->
             getCommentsByNoteId k (snd r) = getCommentsByNoteId k s).
Proof.
  intros Hr Hn r c. subst r c. apply reachable_by_integrity in Hr. destruct Hr.
  unfold_storage. cbn. rewrite Hn. cbn.
  unfold getCommentsByNoteId. cbn [comments].
  erewrite values_set_fresh by (eauto; lia).
  split; [reflexivity|]. split; [|split].
  - apply sort_in, filter_In. split; [apply in_or_app; right; now left|].
    cbn. apply Z.eqb_refl.
  - rewrite !(Permutation_length (sort_permutation _ _)).
    rewrite filter_app, length_app. cbn. rewrite Z.eqb_refl. cbn. lia.
  - intros k Hk. rewrite filter_app. cbn.
    apply Z.eqb_neq in Hk. rewrite Z.eqb_sym in Hk. rewrite Hk.
    now rewrite app_nil_r.
Qed.

Lemma X27_comment_is_listed_witness :
  let r := comment_handler (Some 2) 1 "Again" 300 community_store in
  fst r = Status201 (Comment.mk 3 1 2 "Again" 300) /\
  List.length (getCommentsByNoteId 1 (snd r))
  = S (List.length (getCommentsByNoteId 1 community_store)).
Proof.
  destruct (X27_comment_is_listed community_store 2 1 "Again" 300
              (Note.with_downloads (Note.of_insert (sample_note 1 false (Num 0)) 1 102) 2)
              (reachable_run community_trace) eq_refl) as (H1 & _ & H3 & _).
  exact (conj H1 H3).
Defined.

(** ** Downloads already made *)

(** X28. The download request never reads the Download records: with any
    other set of records in their place it gives the same answer and
    leaves the same users and notes, so a note downloaded before is charged
    again like the first time. *)
Theorem X28_download_ignores_history s auth noteId now ds :
  let r := download_handler auth noteId now s in
  let r' := download_handler auth noteId now (set_downloads ds s) in
  fst r' = fst r /\ users (snd r') = users (snd r) /\ notes (snd r') = notes (snd r).
Proof.
  cbv zeta. destruct auth as [userId|]; [|repeat split].
  unfold_storage. unfold_storage. handler_cases; cbn; repeat split.
Qed.
